(** * EDeN estimator: sampler, shuffler and search of [eden/estimator.py]

    A shallow embedding of the Python 2 module [eden/estimator.py].

    - Lists are Python lists and [Z] are Python integers; [/] on
      integers is the floor division and a slice [l[:k]] with a negative
      [k] counts from the end.
    - Floats (decision values, scores, [random.random()]) are finite
      doubles.  Every finite double is an integer multiple of [2^-1074],
      and a float is kept as that integer, which keeps [<], [==] and
      [abs].  A product with a float is not computed: [int(n * x)] is an
      operation of the runtime, about which nothing is assumed but that
      the product is a finite double.
    - A dictionary is viewed through the iteration order of its keys and
      its lookups.  No label is [None].
    - The global generator of [random] is an explicit state threaded
      through the functions.
    - A raised exception is a value of [result].
    - The decorator [timeit] of [eden.util] logs the time of a call and
      returns what the decorated function returns.
    - [eden.graph.vectorize], scikit-learn and numpy are opaque
      operations of a [Backend]; each of them but the constructor of the
      classifier and [numpy.mean] may raise an exception. *)

From stdpp Require Import base list sorting.
From Stdlib Require Import ZArith Lia.

Set Default Proof Using "Type*".
Open Scope Z_scope.

(** ** Exceptions *)

Inductive PyError : Type :=
  | KeyError
  | ValueError
  | IndexError
  | NotFittedError
  | OtherError (code : nat).

Inductive result (A : Type) : Type :=
  | Ok (a : A)
  | Raise (e : PyError).
Arguments Ok {A} a.
Arguments Raise {A} e.

Definition bind {A B} (m : result A) (k : A → result B) : result B :=
  match m with
  | Ok a => k a
  | Raise e => Raise e
  end.

Notation "x ←! m ; k" := (bind m (λ x, k))
  (at level 20, m at level 100, k at level 200, right associativity,
   format "x  ←!  m ;  '/' k").
Notation "' p ←! m ; k" := (bind m (λ p, k))
  (at level 20, p pattern, m at level 100, k at level 200,
   right associativity, format "' p  ←!  m ;  '/' k").

Definition is_Ok {A} (m : result A) : Prop := ∃ a, m = Ok a.

(** ** The global random generator

    The module draws from the process-wide generator of [random].  Its
    state is an infinite tape of draws and a cursor; [random_below n]
    is [int(random() * n)], a value of [0 .. n-1], and [random_random]
    is [random()], a float of [0, 1) kept as the integer it is a
    multiple of. *)

Record RandomState : Type := mkRandom {
  draws : nat → nat;
  cursor : nat
}.

Definition advance (s : RandomState) : RandomState :=
  mkRandom (draws s) (S (cursor s)).

Definition random_below (n : nat) (s : RandomState) : nat * RandomState :=
  ((draws s (cursor s) `mod` n)%nat, advance s).

Definition random_random (s : RandomState) : Z * RandomState :=
  (Z.of_nat (draws s (cursor s)), advance s).

(** [x[i], x[j] = x[j], x[i]] *)
Definition swap {A} (i j : nat) (x : list A) : list A :=
  match x !! i, x !! j with
  | Some xi, Some xj => <[j := xi]> (<[i := xj]> x)
  | _, _ => x
  end.

(** [random.shuffle]: [for i in reversed(xrange(1, len(x))): j =
    int(random() * (i+1)); x[i], x[j] = x[j], x[i]].  [shuffle_from i]
    runs the iterations [i, i-1, .., 1]. *)
Fixpoint shuffle_from {A} (i : nat) (x : list A) (s : RandomState)
  : list A * RandomState :=
  match i with
  | O => (x, s)
  | S i' =>
      let '(j, s') := random_below (S i) s in
      shuffle_from i' (swap i j x) s'
  end.

Definition random_shuffle {A} (x : list A) (s : RandomState)
  : list A * RandomState :=
  shuffle_from (length x - 1)%nat x s.

(** [i1, i2 = unzip(i1i2)] with toolz's [unzip]: it reads the first tuple
    to learn how many sequences to return, and returns the empty tuple
    for an empty sequence, so the unpacking into two names raises
    [ValueError] there. *)
Definition unzip2 {A B} (seq : list (A * B)) : result (list A * list B) :=
  match seq with
  | [] => Raise ValueError
  | _ :: _ => Ok (seq.*1, seq.*2)
  end.

(** [paired_shuffle(iterable1, iterable2)] *)
Definition paired_shuffle {A B} (iterable1 : list A) (iterable2 : list B)
    (s : RandomState) : result (list A * list B * RandomState) :=
  let i1i2 := zip iterable1 iterable2 in
  let '(i1i2, s) := random_shuffle i1i2 s in
  '(i1, i2) ←! unzip2 i1i2;
  Ok (i1, i2, s).

(** ** The Python runtime and the external collaborators *)

(** Iteration order of a dictionary, as a function of the sequence of
    keys inserted into it.  Python 2 fixes the order by the hashes of the
    keys; all the module relies on is that every key comes once. *)
Class PyDict (K : Type) `{EqDecision K} : Type := {
  dict_keys : list K → list K;
  dict_keys_perm : ∀ l, dict_keys l ≡ₚ remove_dups l
}.

(** [a < b] on graph objects, which Python 2 defines for any two objects. *)
Class PyOrd (G : Type) : Type := py_lt : G → G → bool.

(** [int(n * x)] for an integer [n] and a float [x]. *)
Class PyFloat (F : Type) : Type := int_times : Z → F → Z.

(** A number given for a [ratio]: an integer, as the default is, or a
    float. *)
Inductive Number (F : Type) : Type :=
  | Int (k : Z)
  | Float (x : F).
Arguments Int {F} k.
Arguments Float {F} x.

(** [int(n * ratio)] *)
Definition int_mul {F} `{!PyFloat F} (n : Z) (ratio : Number F) : Z :=
  match ratio with
  | Int k => n * k
  | Float x => int_times n x
  end.

Inductive Scoring : Type :=
  | roc_auc
  | accuracy
  | average_precision.

(** What the module imports: [eden.graph.vectorize], scikit-learn's
    [SGDClassifier] and [cross_val_score], and [numpy.mean].  Floats
    (decision values, scores) are finite doubles and are kept as the
    integers they are multiples of, which keeps their order and their
    absolute value. *)
Class Backend (G T X M : Type) : Type := {
  vectorize : list G → Z → Z → bool → Z → result X;
  SGDClassifier : Z → M;
  sgd_fit : M → X → list T → result M;
  sgd_predict : M → X → result (list T);
  sgd_decision_function : M → X → result (list Z);
  sk_cross_val_score : M → X → list T → Z → Scoring → Z → result (list Z);
  np_mean : list Z → Z
}.

(** The attributes of an [EdenEstimator] object. *)
Record EdenEstimator (F M : Type) : Type := mkEden {
  self_r : Z;
  self_d : Z;
  self_n_jobs : Z;
  self_discrete : bool;
  self_balance : bool;
  self_subsample_size : Z;
  self_ratio : Number F;
  self_model : M
}.
Arguments mkEden {F M}.
Arguments self_r {F M} _.
Arguments self_d {F M} _.
Arguments self_n_jobs {F M} _.
Arguments self_discrete {F M} _.
Arguments self_balance {F M} _.
Arguments self_subsample_size {F M} _.
Arguments self_ratio {F M} _.
Arguments self_model {F M} _.

(** ** Python list helpers *)

(** [l[:k]]: a negative [k] counts from the end. *)
Definition slice_to {A} (k : Z) (l : list A) : list A :=
  if k <? 0 then take (Z.to_nat (Z.of_nat (length l) + k)) l
  else take (Z.to_nat k) l.

(** The length of [l[:k]] for a list of length [n]. *)
Definition slice_len (k : Z) (n : nat) : nat :=
  if k <? 0 then Z.to_nat (Z.of_nat n + k) `min` n else Z.to_nat k `min` n.

(** [sorted(l)] for a comparison [lt]: a stable insertion sort. *)
Fixpoint insert_sorted {A} (lt : A → A → bool) (a : A) (l : list A) : list A :=
  match l with
  | [] => [a]
  | b :: l' => if lt b a then b :: insert_sorted lt a l' else a :: b :: l'
  end.

Definition sorted {A} (lt : A → A → bool) (l : list A) : list A :=
  foldr (insert_sorted lt) [] l.

(** [(p, g) < (q, h)] on tuples: the first components that differ
    decide. *)
Definition tuple_lt {G} `{PyOrd G} (a b : Z * G) : bool :=
  if a.1 =? b.1 then py_lt a.2 b.2 else a.1 <? b.1.

(** [[random.random() for i in range(n)]] *)
Fixpoint random_floats (n : nat) (s : RandomState) : list Z * RandomState :=
  match n with
  | O => ([], s)
  | S n' =>
      let '(p, s) := random_random s in
      let '(ps, s) := random_floats n' s in
      (p :: ps, s)
  end.

(** ** The sampler *)

Section sampler.
Context {G T X M F : Type} `{EqDecision T} `{!PyDict T} `{!PyOrd G}
        `{!Backend G T X M} `{!PyFloat F}.

(** [self.transform(graphs)] *)
Definition transform (self : EdenEstimator F M) (graphs : list G)
  : result X :=
  vectorize graphs (self_r self) (self_d self)
    (self_discrete self) (self_n_jobs self).

(** [self.decision_function(graphs)] *)
Definition decision_function (self : EdenEstimator F M) (graphs : list G)
  : result (list Z) :=
  x ←! transform self graphs;
  sgd_decision_function (self_model self) x.

(** [self.predict(graphs)] *)
Definition predict (self : EdenEstimator F M) (graphs : list G)
  : result (list T) :=
  x ←! transform self graphs;
  sgd_predict (self_model self) x.

(** [Counter(targets)[class_key]] *)
Definition Counter (targets : list T) (class_key : T) : Z :=
  Z.of_nat (length (filter (λ t, t = class_key) targets)).

(** [groupby(lambda x: first(x), tg)[y]] for a key [y] of the
    dictionary: the pairs of label [y], in the order met. *)
Definition groupby_first (tg : list (T * G)) (y : T) : list (T * G) :=
  filter (λ x, x.1 = y) tg.

(** [class_graphs[key]]: [KeyError] for a key that is not in the
    dictionary, as [None] is when no label is [None]. *)
Definition getitem (class_graphs : T → list (T * G)) (key : option T)
  : result (T * list (T * G)) :=
  match key with
  | None => Raise KeyError
  | Some y =>
      match class_graphs y with
      | [] => Raise KeyError
      | items => Ok (y, items)
      end
  end.

(** The variables of the first loop of [balance]. *)
Record ClassScan : Type := mkScan {
  majority_class : option T;
  max_count : Z;
  minority_class : option T;
  min_count : Z
}.

Definition scan_init : ClassScan := mkScan None 0 None 1000000.

Definition scan_class (class_counts : T → Z) (v : ClassScan) (class_key : T)
  : ClassScan :=
  let v :=
    if max_count v <? class_counts class_key
    then mkScan (Some class_key) (class_counts class_key)
                (minority_class v) (min_count v)
    else v in
  if min_count v >? class_counts class_key
  then mkScan (majority_class v) (max_count v)
              (Some class_key) (class_counts class_key)
  else v.

Definition class_scan (targets : list T) : ClassScan :=
  let class_counts := Counter targets in
  foldl (scan_class class_counts) scan_init (dict_keys targets).

(** The majority graphs kept, from their decision values. *)
Definition select_majority (preds : list Z) (maj_graphs : list G)
    (desired_size : Z) : list (Z * G) :=
  let preds := Z.abs <$> preds in
  slice_to desired_size (sorted tuple_lt (zip preds maj_graphs)).

(** The decision values of the majority graphs: those of the estimator
    when there is one ([if estimator:]), and random ones otherwise. *)
Definition balance_preds (estimator : option (EdenEstimator F M))
    (maj_graphs : list G) (s : RandomState)
  : result (list Z * RandomState) :=
  match estimator with
  | Some estimator =>
      preds ←! decision_function estimator maj_graphs;
      Ok (preds, s)
  | None => Ok (random_floats (length maj_graphs) s)
  end.

(** An estimator answers, with one decision value, a number, for each
    graph: it is fitted, and its classifier tells two classes apart. *)
Definition per_sample (estimator : option (EdenEstimator F M)) : Prop :=
  ∀ e graphs, estimator = Some e →
    ∃ preds, decision_function e graphs = Ok preds ∧
             length preds = length graphs.

(** [balance(graphs, targets, estimator, ratio)] *)
Definition balance (graphs : list G) (targets : list T)
    (estimator : option (EdenEstimator F M)) (ratio : Number F)
    (s : RandomState)
  : result (list G * list T * RandomState) :=
  let v := class_scan targets in
  let desired_size := int_mul (min_count v) ratio in
  let tg := zip targets graphs in
  let class_graphs := groupby_first tg in
  '(majority_class, maj_items) ←! getitem class_graphs (majority_class v);
  '(minority_class, min_items) ←! getitem class_graphs (minority_class v);
  let maj_graphs := maj_items.*2 in
  let min_graphs := min_items.*2 in
  '(preds, s) ←! balance_preds estimator maj_graphs s;
  let pred_graphs := select_majority preds maj_graphs desired_size in
  let maj_graphs := pred_graphs.*2 in
  let bal_graphs := min_graphs ++ maj_graphs in
  let bal_pos := replicate (length min_graphs) minority_class in
  let bal_neg := replicate (length maj_graphs) majority_class in
  let bal_targets := bal_pos ++ bal_neg in
  paired_shuffle bal_graphs bal_targets s.

(** One turn of the loop of [subsample]. *)
Definition subsample_class (class_graphs : T → list (T * G)) (size : Z)
    (acc : list G * list T) (y : T) : list G * list T :=
  let '(subgraphs, subtargets) := acc in
  let class_subgraphs := slice_to size (class_graphs y) in
  let class_subgraphs := class_subgraphs.*2 in
  (subgraphs ++ class_subgraphs,
   subtargets ++ replicate (length class_subgraphs) y).

(** [subsample(graphs, targets, subsample_size)]; [/] is the floor
    division of Python 2 integers, and is only reached inside the loop,
    where [num_classes] is positive. *)
Definition subsample (graphs : list G) (targets : list T)
    (subsample_size : Z) (s : RandomState)
  : result (list G * list T * RandomState) :=
  let tg := zip targets graphs in
  let num_classes := Z.of_nat (length (remove_dups targets)) in
  let class_graphs := groupby_first tg in
  let '(subgraphs, subtargets) :=
    foldl (subsample_class class_graphs (subsample_size `div` num_classes))
          ([], []) (dict_keys (tg.*1)) in
  paired_shuffle subgraphs subtargets s.
End sampler.

(** ** The estimator and the randomized search *)

(** The keys of the dictionaries [param_distr] and [params]. *)
Inductive ParamKey : Type :=
  | key_r
  | key_d.

Global Instance ParamKey_eq_dec : EqDecision ParamKey.
Proof. solve_decision. Defined.

(** [random.choice(seq)]: [seq[int(random() * len(seq))]] *)
Definition random_choice {A} (seq : list A) (s : RandomState)
  : result (A * RandomState) :=
  let '(i, s) := random_below (length seq) s in
  match seq !! i with
  | Some a => Ok (a, s)
  | None => Raise IndexError
  end.

(** [max(l)] for a comparison [gt]: the first of the greatest items. *)
Definition py_max {A} (gt : A → A → bool) (l : list A) : result A :=
  match l with
  | [] => Raise ValueError
  | a :: l' => Ok (foldl (λ m item, if gt item m then item else m) a l')
  end.

(** [a < b] on the values of a key of two dictionaries. *)
Definition item_lt (a b : option Z) : bool :=
  match a, b with
  | Some x, Some y => x <? y
  | None, Some _ => true
  | _, _ => false
  end.

(** [a < b] on two dictionaries of keys ["d"] and ["r"]: Python 2 compares
    the values of the smallest key on which they differ, and ["d"] is
    smaller than ["r"]. *)
Definition dict_lt (a b : ParamKey → option Z) : bool :=
  if decide (a key_d = b key_d) then item_lt (a key_r) (b key_r)
  else item_lt (a key_d) (b key_d).

(** [a > b] on the tuples [(score, params)]. *)
Definition trial_gt (a b : Z * (ParamKey → option Z)) : bool :=
  if a.1 =? b.1 then dict_lt b.2 a.2 else b.1 <? a.1.

(** [params[key] = v] *)
Definition setitem (params : ParamKey → option Z) (key : ParamKey) (v : Z)
  : ParamKey → option Z :=
  λ k, if decide (k = key) then Some v else params k.

(** [mapM] on [result]: the first exception wins. *)
Fixpoint collect {A} (l : list (result A)) : result (list A) :=
  match l with
  | [] => Ok []
  | m :: l' => a ←! m; r ←! collect l'; Ok (a :: r)
  end.

Section estimator.
Context {G T X M F : Type} `{EqDecision T} `{!PyDict T} `{!PyOrd G}
        `{!Backend G T X M} `{!PyFloat F} `{!PyDict ParamKey}.

(** [self.set_params(r, d, n_jobs, discrete, balance, subsample_size,
    ratio)] *)
Definition set_params (self : EdenEstimator F M) (r d n_jobs : Z)
    (discrete balance : bool) (subsample_size : Z) (ratio : Number F)
  : EdenEstimator F M :=
  mkEden r d n_jobs discrete balance subsample_size ratio
         (SGDClassifier n_jobs).

(** [EdenEstimator(r, d, n_jobs, discrete, balance, subsample_size,
    ratio)]: every attribute is set by [set_params]. *)
Definition EdenEstimator_init (r d n_jobs : Z) (discrete balance : bool)
    (subsample_size : Z) (ratio : Number F) : EdenEstimator F M :=
  mkEden r d n_jobs discrete balance subsample_size ratio
         (SGDClassifier n_jobs).

(** [EdenEstimator(n_jobs=n_jobs, **params)], with the defaults of
    [__init__] for what is not given. *)
Definition EdenEstimator_kwargs (n_jobs : Z) (params : ParamKey → option Z)
  : EdenEstimator F M :=
  EdenEstimator_init (default 1 (params key_r)) (default 1 (params key_d))
                     n_jobs true false 200 (Int 2).

(** [self.model = model] *)
Definition set_model (self : EdenEstimator F M) (model : M)
  : EdenEstimator F M :=
  mkEden (self_r self) (self_d self) (self_n_jobs self) (self_discrete self)
         (self_balance self) (self_subsample_size self) (self_ratio self)
         model.

(** [self.fit(graphs, targets, randomize)]; the result is [self] after
    the call.  The classifier's [fit] trains the classifier in place and
    returns it. *)
Definition fit (self : EdenEstimator F M) (graphs : list G) (targets : list T)
    (randomize : bool) (s : RandomState)
  : result (EdenEstimator F M * RandomState) :=
  if self_balance self then
    if randomize then
      '(bal_graphs, bal_targets, s) ←!
        balance graphs targets None (self_ratio self) s;
      x ←! transform self bal_graphs;
      model ←! sgd_fit (self_model self) x bal_targets;
      Ok (set_model self model, s)
    else
      '(samp_graphs, samp_targets, s) ←!
        subsample graphs targets (self_subsample_size self) s;
      x ←! transform self samp_graphs;
      model ←! sgd_fit (self_model self) x samp_targets;
      let self := set_model self model in
      '(bal_graphs, bal_targets, s) ←!
        balance graphs targets (Some self) (self_ratio self) s;
      x ←! transform self bal_graphs;
      model ←! sgd_fit (self_model self) x bal_targets;
      Ok (set_model self model, s)
  else
    x ←! transform self graphs;
    model ←! sgd_fit (self_model self) x targets;
    Ok (set_model self model, s).

(** [self.cross_val_score(graphs, target, scoring, cv)]: the scores or
    the exception, and [self] after the call.  scikit-learn's
    [cross_val_score] fits clones of the classifier it is given. *)
Definition cross_val_score (self : EdenEstimator F M) (graphs : list G)
    (target : list T) (scoring : Scoring) (cv : Z)
  : result (list Z) * EdenEstimator F M :=
  let scores :=
    x ←! transform self graphs;
    sk_cross_val_score (self_model self) x target cv scoring
                       (self_n_jobs self) in
  (scores, self).

(** The dictionary [param_distr] of [model_selection_rand]. *)
Definition param_distr (key : ParamKey) : list Z :=
  match key with
  | key_r => Z.of_nat <$> seq 1 4
  | key_d => Z.of_nat <$> seq 0 6
  end.

(** [_sample_params(param_distr)]; the keys come in the iteration order
    of the dictionary literal. *)
Definition _sample_params (param_distr : ParamKey → list Z) (s : RandomState)
  : result ((ParamKey → option Z) * RandomState) :=
  foldl (λ acc key,
           '(params, s) ←! acc;
           '(v, s) ←! random_choice (param_distr key) s;
           Ok (setitem params key v, s))
        (Ok (λ _, None, s)) (dict_keys [key_r; key_d]).

(** [_eval_params(graphs, targets, param_distr)] *)
Definition _eval_params (graphs : list G) (targets : list T)
    (param_distr : ParamKey → list Z) (s : RandomState)
  : result (Z * (ParamKey → option Z)) :=
  '(params, s) ←! _sample_params param_distr s;
  let est := EdenEstimator_kwargs 1 params in
  let '(scores, est) := cross_val_score est graphs targets roc_auc 5 in
  scores ←! scores;
  Ok (np_mean scores, params).

(** [if subsample_size: graphs, targets = subsample(graphs, targets,
    subsample_size=subsample_size)]; [None] and [0] are false. *)
Definition maybe_subsample (graphs : list G) (targets : list T)
    (subsample_size : option Z) (s : RandomState)
  : result (list G * list T * RandomState) :=
  match subsample_size with
  | None => Ok (graphs, targets, s)
  | Some size =>
      if size =? 0 then Ok (graphs, targets, s)
      else subsample graphs targets size s
  end.

(** [self.model_selection_rand(graphs, targets, n_iter, subsample_size)].
    [pool.map] runs trial [i] in a worker process whose generator is in
    the state [worker_random i], and returns the results in the order of
    the trials; when trials raise, it raises the exception of one of
    them, here the first. *)
Definition model_selection_rand (self : EdenEstimator F M) (graphs : list G)
    (targets : list T) (n_iter : Z) (subsample_size : option Z)
    (worker_random : nat → RandomState) (s : RandomState)
  : result (EdenEstimator F M * RandomState) :=
  '(graphs, targets, s) ←! maybe_subsample graphs targets subsample_size s;
  scores ←! collect ((λ i, _eval_params graphs targets param_distr
                             (worker_random i))
                     <$> seq 0 (Z.to_nat n_iter));
  best ←! py_max trial_gt scores;
  let best_params := best.2 in
  Ok (EdenEstimator_kwargs (-1) best_params, s).
End estimator.

(** ** Train and test sets *)

(** The state of the generator after [random.seed(random_state)]. *)
Class PySeed : Type := random_seed : Z → RandomState.

(** [l[k:]]: a negative [k] counts from the end. *)
Definition slice_from {A} (k : Z) (l : list A) : list A :=
  if k <? 0 then drop (Z.to_nat (Z.of_nat (length l) + k)) l
  else drop (Z.to_nat k) l.

(** [make_train_test_sets(pos_graphs, neg_graphs, test_proportion,
    random_state)].  The result holds the two pairs that are returned,
    then the two lists of the caller, which are shuffled in place, and
    the generator; [np.array] of a list of labels is kept as the list. *)
Definition make_train_test_sets {G F} `{!PyFloat F} `{!PySeed}
    (pos_graphs neg_graphs : list G) (test_proportion : F) (random_state : Z)
  : result ((list G * list Z) * (list G * list Z)
            * (list G * list G) * RandomState) :=
  let s := random_seed random_state in
  let '(pos_graphs, s) := random_shuffle pos_graphs s in
  let '(neg_graphs, s) := random_shuffle neg_graphs s in
  let pos_dim := Z.of_nat (length pos_graphs) in
  let neg_dim := Z.of_nat (length neg_graphs) in
  let tr_pos_graphs :=
    slice_to (- int_times pos_dim test_proportion) pos_graphs in
  let te_pos_graphs :=
    slice_from (- int_times pos_dim test_proportion) pos_graphs in
  let tr_neg_graphs :=
    slice_to (- int_times neg_dim test_proportion) neg_graphs in
  let te_neg_graphs :=
    slice_from (- int_times neg_dim test_proportion) neg_graphs in
  let tr_graphs := tr_pos_graphs ++ tr_neg_graphs in
  let te_graphs := te_pos_graphs ++ te_neg_graphs in
  let tr_targets :=
    replicate (length tr_pos_graphs) 1 ++ replicate (length tr_neg_graphs) 0 in
  let te_targets :=
    replicate (length te_pos_graphs) 1 ++ replicate (length te_neg_graphs) 0 in
  '(tr_graphs, tr_targets, s) ←! paired_shuffle tr_graphs tr_targets s;
  '(te_graphs, te_targets, s) ←! paired_shuffle te_graphs te_targets s;
  Ok ((tr_graphs, tr_targets), (te_graphs, te_targets),
      (pos_graphs, neg_graphs), s).

(** ** Vocabulary of the statements *)

Section vocabulary.
Context {G T X M F : Type} `{EqDecision T} `{!PyDict T} `{!PyOrd G}
        `{!Backend G T X M} `{!PyFloat F} `{!PyDict ParamKey}.

(** What the first loop of [balance] has found after the keys [ks]. *)
Definition scan_inv (cc : T → Z) (ks : list T) (v : ClassScan) : Prop :=
  match majority_class v with
  | None => ks = [] ∧ max_count v = 0
  | Some mj => mj ∈ ks ∧ max_count v = cc mj ∧ ∀ k, k ∈ ks → cc k ≤ cc mj
  end ∧
  match minority_class v with
  | None => min_count v = 1000000 ∧ ∀ k, k ∈ ks → 1000000 ≤ cc k
  | Some mn =>
      mn ∈ ks ∧ min_count v = cc mn ∧ cc mn < 1000000 ∧
      ∀ k, k ∈ ks → cc mn ≤ cc k
  end ∧
  ((∀ k, k ∈ ks → cc k < 1000000) →
   (∀ k1 k2, k1 ∈ ks → k2 ∈ ks → cc k1 = cc k2) →
   majority_class v = minority_class v).

(** The pairs that [balance] hands to the shuffler, when the majority
    graphs have the margins [preds]. *)
Definition balanced (graphs : list G) (targets : list T) (preds : list Z)
    (ratio : Number F) (mj mn : T) : list (G * T) :=
  let tg := zip targets graphs in
  let maj_graphs := (groupby_first tg mj).*2 in
  let kept :=
    select_majority preds maj_graphs
                    (int_mul (min_count (class_scan targets)) ratio) in
  ((λ x, (x.2, mn)) <$> groupby_first tg mn) ++ ((λ pg, (pg.2, mj)) <$> kept).

(** The pairs that one class gives to the subsample. *)
Definition class_sample (tg : list (T * G)) (size : Z) (y : T) : list (G * T) :=
  (λ x, (x.2, y)) <$> slice_to size (groupby_first tg y).

(** The two hyperparameters are set and lie in the grid. *)
Definition in_grid (params : ParamKey → option Z) : Prop :=
  ∃ r d, params key_r = Some r ∧ params key_d = Some d ∧
         1 ≤ r < 5 ∧ 0 ≤ d < 6.

(** The two estimators differ at most in their classifier. *)
Definition same_settings (self self' : EdenEstimator F M) : Prop :=
  self_r self' = self_r self ∧ self_d self' = self_d self ∧
  self_n_jobs self' = self_n_jobs self ∧
  self_discrete self' = self_discrete self ∧
  self_balance self' = self_balance self ∧
  self_subsample_size self' = self_subsample_size self ∧
  self_ratio self' = self_ratio self.

(** The classifier [model] after it has been fitted to the vectors that
    the settings of [self] give for [graphs]. *)
Definition train (self : EdenEstimator F M) (model : M) (graphs : list G)
    (targets : list T) : result M :=
  x ←! vectorize graphs (self_r self) (self_d self) (self_discrete self)
                 (self_n_jobs self);
  sgd_fit model x targets.

(** The mean of the five-fold ROC AUC scores of a new classifier on the
    vectors that [r] and [d] give for [graphs], all on one job. *)
Definition cv_mean (graphs : list G) (targets : list T) (r d : Z) : result Z :=
  x ←! vectorize graphs r d true 1;
  scores ←! sk_cross_val_score (SGDClassifier 1) x targets 5 roc_auc 1;
  Ok (np_mean scores).

(** [e] is an exception that the vectorizer, the fitting of a
    classifier or its decision function raises on some input. *)
Definition backend_raises (e : PyError) : Prop :=
  (∃ (graphs : list G) r d discrete n_jobs,
     vectorize graphs r d discrete n_jobs = Raise e) ∨
  (∃ (model : M) (x : X) (targets : list T),
     sgd_fit model x targets = Raise e) ∨
  (∃ (model : M) (x : X), sgd_decision_function (T:=T) model x = Raise e).
End vocabulary.

(** ** A concrete runtime

    Graphs and labels are integers.  Small integers hash to themselves,
    so a dictionary of small integer keys iterates in increasing order;
    the dictionary literal of [model_selection_rand] iterates ["r"] and
    then ["d"].  The feature matrix of the toy vectorizer holds the graphs
    and a number made of [r] and [d]; the toy classifier is an offset. *)

Definition small_int_keys (l : list Z) : list Z := sorted Z.ltb (remove_dups l).

Global Instance small_int_dict : PyDict Z.
Proof.
  refine {| dict_keys := small_int_keys |}.
  intros l. unfold small_int_keys, sorted.
  induction (remove_dups l) as [|a ks IH]; simpl; [done|].
  rewrite <-IH at 2. generalize (foldr (insert_sorted Z.ltb) [] ks).
  clear. intros ks. induction ks as [|b ks IH]; simpl; [done|].
  destruct (b <? a); [|done]. rewrite IH. apply perm_swap.
Defined.

Global Instance int_ord : PyOrd Z := Z.ltb.

Global Instance literal_dict : PyDict ParamKey :=
  {| dict_keys := remove_dups;
     dict_keys_perm := λ l, reflexivity (remove_dups l) |}.

Global Instance toy_backend : Backend Z Z (Z * list Z) Z :=
  {| vectorize := λ graphs r d _ _, Ok (10 * r + d, graphs);
     SGDClassifier := λ _, 0;
     sgd_fit := λ m x targets, Ok (m + Z.of_nat (length targets));
     sgd_predict := λ m x, Ok ((λ g, if g <? m then 0 else 1) <$> x.2);
     sgd_decision_function := λ m x, Ok ((λ g, g - m) <$> x.2);
     sk_cross_val_score :=
       λ m x targets cv scoring n_jobs, Ok [x.1; x.1 + 2];
     np_mean := λ scores, foldr Z.add 0 scores `div` Z.of_nat (length scores) |}.

(** A proportion [(a, b)] is the fraction [a / b]. *)
Global Instance fraction_float : PyFloat (Z * Z) :=
  λ n x, (n * x.1) `quot` x.2.

(** The generator whose draw number [n] is [n]. *)
Definition count_up : RandomState := mkRandom (λ n, n) 0.

(** The result without the state of the generator. *)
Definition outcome {A} (m : result (A * RandomState)) : result A :=
  '(a, _) ←! m; Ok a.

Definition toy_estimator : EdenEstimator (Z * Z) Z :=
  EdenEstimator_init 1 1 (-1) true false 200 (Int 2).

(** The toy estimator with balancing on. *)
Definition toy_balanced : EdenEstimator (Z * Z) Z :=
  EdenEstimator_init 1 1 (-1) true true 200 (Int 2).

(** The seed is the first draw of the generator. *)
Global Instance toy_seed : PySeed :=
  λ random_state, mkRandom (λ n, (Z.to_nat random_state + n)%nat) 0.

(** A backend that fails where scikit-learn does.  A classifier is
    [None] until it is fitted, and then asked for a decision value or a
    prediction it raises [NotFittedError]; fitting needs two classes at
    least, and cross-validation as many samples as folds, and they raise
    [ValueError] otherwise. *)
Global Instance strict_backend : Backend Z Z (list Z) (option Z) :=
  {| vectorize := λ graphs r d _ _, Ok graphs;
     SGDClassifier := λ _, None;
     sgd_fit := λ m x targets,
       if decide (length (remove_dups targets) < 2)%nat then Raise ValueError
       else Ok (Some (Z.of_nat (length targets)));
     sgd_predict := λ m x,
       match m with
       | None => Raise NotFittedError
       | Some b => Ok ((λ g, if g <? b then 0 else 1) <$> x)
       end;
     sgd_decision_function := λ m x,
       match m with
       | None => Raise NotFittedError
       | Some b => Ok ((λ g, g - b) <$> x)
       end;
     sk_cross_val_score := λ m x targets cv scoring n_jobs,
       if decide (Z.of_nat (length x) < cv) then Raise ValueError
       else Ok [Z.of_nat (length x)];
     np_mean := λ scores, foldr Z.add 0 scores `div` Z.of_nat (length scores) |}.

(** A new estimator of that backend, with balancing on. *)
Definition strict_estimator : EdenEstimator (Z * Z) (option Z) :=
  EdenEstimator_init 1 1 (-1) true true 200 (Int 1).

(** ** Tactics *)

Ltac in_list := by repeat constructor.

Ltac label_cases H :=
  repeat (apply elem_of_cons in H as [H|H]);
  [..|by apply not_elem_of_nil in H].

(** ** Facts about the shuffler *)

Section shuffle_facts.
Context {A : Type}.
Implicit Types x : list A.

Lemma length_swap i j x : length (swap i j x) = length x.
Proof.
  unfold swap. destruct (x !! i), (x !! j); try done.
  by rewrite !length_insert.
Qed.

Lemma swap_lookup i j x k :
  (i < length x)%nat → (j < length x)%nat →
  swap i j x !! k =
    x !! (if decide (k = j) then i else if decide (k = i) then j else k).
Proof.
  intros Hi Hj. unfold swap.
  destruct (lookup_lt_is_Some_2 x i Hi) as [xi Hxi].
  destruct (lookup_lt_is_Some_2 x j Hj) as [xj Hxj].
  rewrite Hxi, Hxj.
  destruct (decide (k = j)) as [->|Hkj].
  - rewrite list_lookup_insert_eq by (by rewrite length_insert). done.
  - rewrite list_lookup_insert_ne by done.
    destruct (decide (k = i)) as [->|Hki].
    + rewrite list_lookup_insert_eq by done. done.
    + by rewrite list_lookup_insert_ne.
Qed.

Lemma swap_perm i j x : swap i j x ≡ₚ x.
Proof.
  destruct (decide (i < length x)%nat) as [Hi|Hi]; cycle 1.
  { unfold swap. rewrite (lookup_ge_None_2 x i) by lia. done. }
  destruct (decide (j < length x)%nat) as [Hj|Hj]; cycle 1.
  { unfold swap. rewrite (lookup_ge_None_2 x j) by lia.
    by destruct (x !! i). }
  apply Permutation_inj. split; [apply length_swap|].
  exists (λ k, if decide (k = j) then i
               else if decide (k = i) then j else k).
  split.
  - intros a b Hab. repeat case_decide; congruence.
  - intros k. by apply swap_lookup.
Qed.

Lemma shuffle_from_perm i x s : (shuffle_from i x s).1 ≡ₚ x.
Proof.
  revert x s. induction i as [|i IH]; intros x s; simpl; [done|].
  rewrite IH. apply swap_perm.
Qed.

Lemma random_shuffle_perm x s : (random_shuffle x s).1 ≡ₚ x.
Proof. apply shuffle_from_perm. Qed.

Lemma random_shuffle_length x s :
  length (random_shuffle x s).1 = length x.
Proof. by rewrite random_shuffle_perm. Qed.
End shuffle_facts.

(** ** Facts about the list helpers *)

Lemma unzip2_Ok {A B} (seq : list (A * B)) :
  seq ≠ [] → unzip2 seq = Ok (seq.*1, seq.*2).
Proof. by destruct seq. Qed.

Lemma paired_shuffle_Ok {A B} (i1 : list A) (i2 : list B) s :
  zip i1 i2 ≠ [] →
  ∃ o1 o2 s', paired_shuffle i1 i2 s = Ok (o1, o2, s') ∧
    zip o1 o2 ≡ₚ zip i1 i2 ∧ length o1 = length o2.
Proof.
  intros Hne. unfold paired_shuffle.
  pose proof (random_shuffle_perm (zip i1 i2) s) as Hperm.
  destruct (random_shuffle (zip i1 i2) s) as [sh s'] eqn:Hsh. simpl in Hperm.
  assert (sh ≠ []) as Hsh_ne.
  { intros ->. by apply Permutation_nil_l in Hperm. }
  rewrite unzip2_Ok by done. simpl.
  eexists _, _, _. split; [done|]. split.
  - by rewrite zip_fst_snd.
  - by rewrite !length_fmap.
Qed.

Lemma paired_shuffle_raises {A B} (i1 : list A) (i2 : list B) s :
  zip i1 i2 = [] → paired_shuffle i1 i2 s = Raise ValueError.
Proof.
  intros Hnil. unfold paired_shuffle. rewrite Hnil. reflexivity.
Qed.

Lemma paired_shuffle_inv {A B} (i1 : list A) (i2 : list B) s o1 o2 s' :
  paired_shuffle i1 i2 s = Ok (o1, o2, s') →
  zip i1 i2 ≠ [] ∧ zip o1 o2 ≡ₚ zip i1 i2 ∧ length o1 = length o2.
Proof.
  intros Hok. destruct (decide (zip i1 i2 = [])) as [Hnil|Hne].
  { by rewrite paired_shuffle_raises in Hok. }
  split; [done|].
  destruct (paired_shuffle_Ok i1 i2 s Hne) as (p1 & p2 & t & Heq & Hp & Hl).
  rewrite Heq in Hok. by simplify_eq.
Qed.

Lemma zip_replicate_r {A B} (l : list A) (y : B) :
  zip l (replicate (length l) y) = (λ g, (g, y)) <$> l.
Proof. induction l as [|a l IH]; simpl; [done|]. by rewrite IH. Qed.

Lemma zip_app_replicate {A B} (l1 l2 : list A) (y1 y2 : B) :
  zip (l1 ++ l2) (replicate (length l1) y1 ++ replicate (length l2) y2)
  = ((λ g, (g, y1)) <$> l1) ++ ((λ g, (g, y2)) <$> l2).
Proof.
  rewrite zip_with_app by (by rewrite length_replicate).
  by rewrite !zip_replicate_r.
Qed.

Lemma filter_label_fmap {A B C} `{EqDecision C} (f : A → B) (c y : C)
    (l : list A) :
  filter (λ p : B * C, p.2 = y) ((λ x, (f x, c)) <$> l)
  = if decide (c = y) then (λ x, (f x, c)) <$> l else [].
Proof.
  induction l as [|x l IH]; csimpl.
  - by destruct (decide (c = y)).
  - destruct (decide (c = y)) as [->|Hne].
    + rewrite filter_cons_True by done. by rewrite IH.
    + by rewrite filter_cons_False by done.
Qed.

Lemma zip_Permutation_snd {A B} (o1 : list A) (o2 : list B) (l : list (A * B)) :
  length o1 = length o2 → zip o1 o2 ≡ₚ l → o2 ≡ₚ l.*2 ∧ o1 ≡ₚ l.*1.
Proof.
  intros Hlen Hp. split.
  - rewrite <-Hp. by rewrite snd_zip by lia.
  - rewrite <-Hp. by rewrite fst_zip by lia.
Qed.

Lemma slice_to_take {A} (k : Z) (l : list A) :
  slice_to k l = take (slice_len k (length l)) l.
Proof.
  unfold slice_to, slice_len. destruct (k <? 0).
  - destruct (decide (Z.to_nat (Z.of_nat (length l) + k) ≤ length l)%nat).
    + by rewrite Nat.min_l by lia.
    + rewrite Nat.min_r by lia. by rewrite !take_ge by lia.
  - destruct (decide (Z.to_nat k ≤ length l)%nat).
    + by rewrite Nat.min_l by lia.
    + rewrite Nat.min_r by lia. by rewrite !take_ge by lia.
Qed.

Lemma length_slice_to {A} (k : Z) (l : list A) :
  length (slice_to k l) = slice_len k (length l).
Proof.
  rewrite slice_to_take, length_take. unfold slice_len.
  destruct (k <? 0); lia.
Qed.

Lemma slice_len_nonneg (k : Z) (n : nat) :
  0 ≤ k → Z.of_nat (slice_len k n) = Z.min k (Z.of_nat n).
Proof.
  intros Hk. unfold slice_len.
  destruct (Z.ltb_spec k 0); lia.
Qed.

Lemma slice_to_split {A} (k : Z) (l : list A) :
  l = slice_to k l ++ drop (slice_len k (length l)) l.
Proof. by rewrite slice_to_take, take_drop. Qed.

Section sort_facts.
Context {A : Type} (lt : A → A → bool).

Lemma insert_sorted_perm a l : insert_sorted lt a l ≡ₚ a :: l.
Proof.
  induction l as [|b l IH]; simpl; [done|].
  destruct (lt b a); [|done].
  rewrite IH. apply perm_swap.
Qed.

Lemma sorted_perm l : sorted lt l ≡ₚ l.
Proof.
  induction l as [|a l IH]; simpl; [done|].
  by rewrite insert_sorted_perm, IH.
Qed.

Lemma length_sorted l : length (sorted lt l) = length l.
Proof. by rewrite sorted_perm. Qed.

Context (R : relation A) `{!Transitive R}.
Hypothesis lt_true : ∀ a b, lt a b = true → R a b.
Hypothesis lt_false : ∀ a b, lt a b = false → R b a.

Lemma insert_sorted_StronglySorted a l :
  StronglySorted R l → StronglySorted R (insert_sorted lt a l).
Proof.
  induction 1 as [|b l Hl IH Hb]; simpl.
  - repeat constructor.
  - destruct (lt b a) eqn:Hba.
    + constructor; [done|].
      rewrite insert_sorted_perm. constructor; [by apply lt_true|done].
    + apply lt_false in Hba.
      constructor; [by constructor|].
      constructor; [done|].
      eapply Forall_impl; [exact Hb|]. intros c Hc. by trans b.
Qed.

Lemma sorted_StronglySorted l : StronglySorted R (sorted lt l).
Proof.
  induction l as [|a l IH]; simpl; [constructor|].
  by apply insert_sorted_StronglySorted.
Qed.

Lemma sorted_slice_le k l a b :
  a ∈ slice_to k (sorted lt l) →
  b ∈ drop (slice_len k (length l)) (sorted lt l) →
  R a b.
Proof.
  intros Ha Hb. rewrite slice_to_take, length_sorted in Ha.
  eapply (StronglySorted_app_1_elem_of R); [|exact Ha|exact Hb].
  rewrite take_drop. apply sorted_StronglySorted.
Qed.
End sort_facts.

Lemma tuple_lt_true {G} `{PyOrd G} (a b : Z * G) :
  tuple_lt a b = true → a.1 ≤ b.1.
Proof.
  unfold tuple_lt. destruct (Z.eqb_spec a.1 b.1); [lia|].
  intros ?%Z.ltb_lt. lia.
Qed.

Lemma tuple_lt_false {G} `{PyOrd G} (a b : Z * G) :
  tuple_lt a b = false → b.1 ≤ a.1.
Proof.
  unfold tuple_lt. destruct (Z.eqb_spec a.1 b.1); [lia|].
  intros ?%Z.ltb_ge. lia.
Qed.

(** ** Facts about the sampler *)

Section sampler_facts.
Context {G T X M F : Type} `{EqDecision T} `{!PyDict T} `{!PyOrd G}
        `{!Backend G T X M} `{!PyFloat F}.
Implicit Types (graphs : list G) (targets : list T) (tg : list (T * G)).

Lemma elem_of_dict_keys (l : list T) k : k ∈ dict_keys l ↔ k ∈ l.
Proof. by rewrite dict_keys_perm, elem_of_remove_dups. Qed.

Lemma elem_of_dict_keys_1 (l : list T) k : k ∈ dict_keys l → k ∈ l.
Proof. apply elem_of_dict_keys. Qed.

Lemma elem_of_dict_keys_2 (l : list T) k : k ∈ l → k ∈ dict_keys l.
Proof. apply elem_of_dict_keys. Qed.

Lemma NoDup_dict_keys (l : list T) : NoDup (dict_keys l).
Proof. rewrite dict_keys_perm. apply NoDup_remove_dups. Qed.

Lemma length_dict_keys (l : list T) :
  length (dict_keys l) = length (remove_dups l).
Proof. by rewrite dict_keys_perm. Qed.

Lemma Counter_nonneg targets k : 0 ≤ Counter targets k.
Proof. unfold Counter. lia. Qed.

Lemma Counter_pos targets k : k ∈ targets → 0 < Counter targets k.
Proof.
  intros Hk. unfold Counter.
  assert (k ∈ filter (λ t, t = k) targets) as Hin
    by (by apply list_elem_of_filter).
  destruct (filter (λ t, t = k) targets); [by apply not_elem_of_nil in Hin|].
  simpl. lia.
Qed.

Lemma Counter_zero targets k : k ∉ targets → Counter targets k = 0.
Proof.
  intros Hk. unfold Counter.
  destruct (filter (λ t, t = k) targets) as [|t l] eqn:Hf; [done|].
  assert (t ∈ filter (λ t, t = k) targets) as [-> ?]%list_elem_of_filter
    by (rewrite Hf; left).
  done.
Qed.

Lemma Counter_perm (l1 l2 : list T) k :
  l1 ≡ₚ l2 → Counter l1 k = Counter l2 k.
Proof. intros Hp. unfold Counter. by rewrite Hp. Qed.

Lemma Counter_app (l1 l2 : list T) k :
  Counter (l1 ++ l2) k = Counter l1 k + Counter l2 k.
Proof. unfold Counter. rewrite filter_app, length_app. lia. Qed.

Lemma Counter_replicate_eq n (k : T) :
  Counter (replicate n k) k = Z.of_nat n.
Proof.
  unfold Counter. induction n as [|n IH]; simpl; [done|].
  rewrite filter_cons_True by done. simpl. lia.
Qed.

Lemma Counter_replicate_ne n (k k' : T) :
  k ≠ k' → Counter (replicate n k) k' = 0.
Proof.
  intros Hne. apply Counter_zero. intros [? ?]%elem_of_replicate. done.
Qed.

Local Ltac in_app :=
  rewrite elem_of_app, list_elem_of_singleton; auto.

Lemma scan_inv_foldl (cc : T → Z) (ks : list T) :
  (∀ k, k ∈ ks → 0 < cc k) →
  scan_inv cc ks (foldl (scan_class cc) scan_init ks).
Proof.
  induction ks as [|k ks IH] using rev_ind; intros Hpos.
  { repeat split; simpl; try done. intros k []%not_elem_of_nil. }
  rewrite foldl_app. simpl.
  destruct IH as (Hmaj & Hmin & Htie).
  { intros k' Hk'. apply Hpos. in_app. }
  assert (0 < cc k) as Hk by (apply Hpos; in_app).
  destruct (foldl (scan_class cc) scan_init ks) as [maj mx mn mi].
  unfold scan_inv, scan_class in *. simpl in *.
  assert (∀ P : T → Prop, (∀ k', k' ∈ ks ++ [k] → P k') ↔
            (∀ k', k' ∈ ks → P k') ∧ P k) as Hall.
  { intros P. split.
    - intros HP. split; [intros; apply HP; in_app|apply HP; in_app].
    - intros [HP1 HP2] k' [?|Hk'%list_elem_of_singleton]%elem_of_app;
        [auto|by subst]. }
  destruct (Z.ltb_spec mx (cc k)) as [Hlt|Hge]; simpl;
    rewrite Z.gtb_ltb; destruct (Z.ltb_spec (cc k) mi) as [Hlt'|Hge']; simpl.
  - split_and!; [in_app| done |..].
    + apply Hall. split; [|lia]. destruct maj as [mj|].
      * destruct Hmaj as (? & -> & Hle). intros k' ?%Hle. lia.
      * destruct Hmaj as [-> _]. intros k' []%not_elem_of_nil.
    + in_app.
    + done.
    + destruct mn as [mn'|]; lia.
    + apply Hall. split; [|lia]. destruct mn as [mn'|].
      * destruct Hmin as (? & -> & ? & Hle). intros k' ?%Hle. lia.
      * destruct Hmin as [-> Hle]. intros k' ?%Hle. lia.
    + done.
  - split_and!; [in_app| done |..].
    + apply Hall. split; [|lia]. destruct maj as [mj|].
      * destruct Hmaj as (? & -> & Hle). intros k' ?%Hle. lia.
      * destruct Hmaj as [-> _]. intros k' []%not_elem_of_nil.
    + destruct mn as [mn'|].
      * destruct Hmin as (? & -> & ? & Hle). split_and!; [in_app|done..|].
        apply Hall. split; [done|lia].
      * destruct Hmin as [-> Hle]. split; [done|]. apply Hall. split; [done|lia].
    + intros Hsmall Heq. apply Hall in Hsmall as [Hsmall Hk1].
      destruct maj as [mj|].
      * destruct Hmaj as (Hin & -> & _).
        specialize (Heq mj k). rewrite Heq in Hlt; [lia|in_app..].
      * destruct Hmaj as [-> ->]. destruct mn as [mn'|].
        -- destruct Hmin as (Hin & _). by apply not_elem_of_nil in Hin.
        -- destruct Hmin as [-> _]. lia.
  - destruct maj as [mj|].
    + destruct Hmaj as (Hin & -> & Hle). split_and!; [in_app|done|..].
      * apply Hall. split; [done|lia].
      * in_app.
      * done.
      * destruct mn as [mn'|]; lia.
      * apply Hall. split; [|lia]. destruct mn as [mn'|].
        -- destruct Hmin as (? & -> & ? & Hle'). intros k' ?%Hle'. lia.
        -- destruct Hmin as [-> Hle']. intros k' ?%Hle'. lia.
      * intros Hsmall Heq. apply Hall in Hsmall as [Hsmall Hk1].
        destruct mn as [mn'|].
        -- destruct Hmin as (Hin' & -> & _).
           specialize (Heq mn' k). rewrite Heq in Hlt'; [lia|in_app..].
        -- destruct Hmin as [_ Hle']. specialize (Hle' mj Hin).
           specialize (Hsmall mj Hin). lia.
    + destruct Hmaj as [-> ->]. lia.
  - destruct maj as [mj|].
    + destruct Hmaj as (Hin & -> & Hle). split_and!; [in_app|done|..].
      * apply Hall. split; [done|lia].
      * destruct mn as [mn'|].
        -- destruct Hmin as (? & -> & ? & Hle').
           split_and!; [in_app|done..|]. apply Hall. split; [done|lia].
        -- destruct Hmin as [-> Hle']. split; [done|].
           apply Hall. split; [done|lia].
      * intros Hsmall Heq. apply Hall in Hsmall as [Hsmall Hk1]. apply Htie.
        -- done.
        -- intros k1 k2 ? ?. apply Heq; in_app.
    + destruct Hmaj as [-> ->]. lia.
Qed.
End sampler_facts.

Section balance_facts.
Context {G T X M F : Type} `{EqDecision T} `{!PyDict T} `{!PyOrd G}
        `{!Backend G T X M} `{!PyFloat F}.
Implicit Types (graphs : list G) (targets : list T) (tg : list (T * G)).

Lemma class_scan_inv targets :
  scan_inv (Counter targets) (dict_keys targets) (class_scan targets).
Proof.
  apply scan_inv_foldl. intros k Hk%elem_of_dict_keys_1. by apply Counter_pos.
Qed.

Lemma class_scan_majority targets :
  targets ≠ [] →
  ∃ mj, majority_class (class_scan targets) = Some mj ∧ mj ∈ targets ∧
        max_count (class_scan targets) = Counter targets mj ∧
        ∀ k, k ∈ targets → Counter targets k ≤ Counter targets mj.
Proof.
  intros Hne. destruct (class_scan_inv targets) as (Hmaj & _).
  destruct (majority_class (class_scan targets)) as [mj|].
  - destruct Hmaj as (Hin & Hmx & Hle). exists mj.
    split_and!; [done|by apply elem_of_dict_keys_1|done|].
    intros k Hk. by apply Hle, elem_of_dict_keys_2.
  - destruct Hmaj as [Hnil _]. destruct targets as [|t targets]; [done|].
    assert (t ∈ dict_keys (t :: targets)) as Hin
      by (apply elem_of_dict_keys_2; left).
    rewrite Hnil in Hin. by apply not_elem_of_nil in Hin.
Qed.

Lemma class_scan_minority targets :
  (∃ k, k ∈ targets ∧ Counter targets k < 1000000) →
  ∃ mn, minority_class (class_scan targets) = Some mn ∧ mn ∈ targets ∧
        min_count (class_scan targets) = Counter targets mn ∧
        ∀ k, k ∈ targets → Counter targets mn ≤ Counter targets k.
Proof.
  intros (k0 & Hk0 & Hsmall). destruct (class_scan_inv targets) as (_ & Hmin & _).
  destruct (minority_class (class_scan targets)) as [mn|].
  - destruct Hmin as (Hin & Hmi & _ & Hle). exists mn.
    split_and!; [done|by apply elem_of_dict_keys_1|done|].
    intros k Hk. by apply Hle, elem_of_dict_keys_2.
  - destruct Hmin as [_ Hle].
    specialize (Hle k0 (elem_of_dict_keys_2 _ _ Hk0)). lia.
Qed.

Lemma class_scan_no_minority targets :
  (∀ k, k ∈ targets → 1000000 ≤ Counter targets k) →
  minority_class (class_scan targets) = None.
Proof.
  intros Hbig. destruct (class_scan_inv targets) as (_ & Hmin & _).
  destruct (minority_class (class_scan targets)) as [mn|]; [|done].
  destruct Hmin as (Hin%elem_of_dict_keys_1 & _ & Hlt & _).
  specialize (Hbig mn Hin). lia.
Qed.

Lemma class_scan_tie targets :
  (∀ k, k ∈ targets → Counter targets k < 1000000) →
  (∀ k1 k2, k1 ∈ targets → k2 ∈ targets →
     Counter targets k1 = Counter targets k2) →
  majority_class (class_scan targets) = minority_class (class_scan targets).
Proof.
  intros Hsmall Heq. destruct (class_scan_inv targets) as (_ & _ & Htie).
  apply Htie.
  - intros k Hk%elem_of_dict_keys_1. by apply Hsmall.
  - intros k1 k2 Hk1%elem_of_dict_keys_1 Hk2%elem_of_dict_keys_1. by apply Heq.
Qed.

Lemma length_groupby_first tg y :
  Z.of_nat (length (groupby_first tg y)) = Counter (tg.*1) y.
Proof.
  unfold groupby_first, Counter. f_equal.
  induction tg as [|[t g] tg IH]; simpl; [done|].
  destruct (decide (t = y)) as [->|Hne].
  - rewrite !filter_cons_True by done. simpl. by rewrite IH.
  - by rewrite !filter_cons_False by done.
Qed.

Lemma groupby_first_ne tg y : y ∈ tg.*1 → groupby_first tg y ≠ [].
Proof.
  intros Hy Hnil. apply Counter_pos in Hy.
  rewrite <-length_groupby_first, Hnil in Hy. simpl in Hy. lia.
Qed.

Lemma groupby_first_label tg y x : x ∈ groupby_first tg y → x.1 = y ∧ x ∈ tg.
Proof. unfold groupby_first. by intros ?%list_elem_of_filter. Qed.

Lemma getitem_Ok tg y :
  groupby_first tg y ≠ [] →
  getitem (groupby_first tg) (Some y) = Ok (y, groupby_first tg y).
Proof. simpl. by destruct (groupby_first tg y). Qed.

Lemma getitem_inv tg key y items :
  getitem (groupby_first tg) key = Ok (y, items) →
  key = Some y ∧ items = groupby_first tg y ∧ items ≠ [].
Proof.
  destruct key as [k|]; simpl; [|done].
  destruct (groupby_first tg k) eqn:Hg; [done|].
  intros [= <- <-]. by rewrite Hg.
Qed.

Lemma length_random_floats n s : length (random_floats n s).1 = n.
Proof.
  revert s. induction n as [|n IH]; intros s; simpl; [done|].
  specialize (IH (advance s)).
  destruct (random_floats n (advance s)). simpl in *. by rewrite IH.
Qed.

Lemma balance_preds_Ok (estimator : option (EdenEstimator F M))
    (maj_graphs : list G) s :
  per_sample estimator →
  ∃ preds s1, balance_preds estimator maj_graphs s = Ok (preds, s1) ∧
              length preds = length maj_graphs.
Proof.
  intros Hper. destruct estimator as [e|]; simpl.
  - destruct (Hper e maj_graphs eq_refl) as (preds & -> & Hl). simpl.
    by exists preds, s.
  - destruct (random_floats (length maj_graphs) s) as [preds s1] eqn:Hr.
    exists preds, s1. split; [done|].
    change preds with (preds, s1).1. rewrite <-Hr. apply length_random_floats.
Qed.

Lemma length_balance_preds (estimator : option (EdenEstimator F M))
    (maj_graphs : list G) s preds s1 :
  per_sample estimator →
  balance_preds estimator maj_graphs s = Ok (preds, s1) →
  length preds = length maj_graphs.
Proof.
  intros Hper Hpreds.
  destruct (balance_preds_Ok estimator maj_graphs s Hper)
    as (preds' & s1' & Heq & Hl).
  rewrite Heq in Hpreds. by simplify_eq.
Qed.

Lemma balance_run graphs targets (estimator : option (EdenEstimator F M))
    ratio s mj mn preds s1 :
  majority_class (class_scan targets) = Some mj →
  minority_class (class_scan targets) = Some mn →
  groupby_first (zip targets graphs) mj ≠ [] →
  groupby_first (zip targets graphs) mn ≠ [] →
  balance_preds estimator (groupby_first (zip targets graphs) mj).*2 s
  = Ok (preds, s1) →
  ∃ out_g out_t s', balance graphs targets estimator ratio s
                    = Ok (out_g, out_t, s') ∧
    zip out_g out_t ≡ₚ balanced graphs targets preds ratio mj mn ∧
    length out_g = length out_t.
Proof.
  intros Hmj Hmn Hgmj Hgmn Hpreds. unfold balance, balanced.
  rewrite Hmj, Hmn, !getitem_Ok by done. simpl.
  rewrite Hpreds. simpl.
  match goal with |- context [paired_shuffle ?a ?b s1] =>
    destruct (paired_shuffle_Ok a b s1) as (o1 & o2 & s' & Heq & Hp & Hl) end.
  { rewrite zip_app_replicate.
    destruct (groupby_first (zip targets graphs) mn); [done|]. done. }
  exists o1, o2, s'. split; [done|]. split; [|done].
  rewrite Hp, zip_app_replicate. by rewrite <-!list_fmap_compose.
Qed.

(** The minimum search starts from [1e6]: when no class is smaller, no
    minority class is found and the lookup of [None] fails. *)
Lemma balance_large_classes graphs targets
    (estimator : option (EdenEstimator F M)) ratio s :
  (∀ k, k ∈ targets → 1000000 ≤ Counter targets k) →
  balance graphs targets estimator ratio s = Raise KeyError.
Proof.
  intros Hbig. unfold balance. rewrite (class_scan_no_minority _ Hbig).
  destruct (majority_class (class_scan targets)) as [mj|]; simpl; [|done].
  by destruct (groupby_first (zip targets graphs) mj).
Qed.

Lemma balance_inv graphs targets (estimator : option (EdenEstimator F M))
    ratio s out_g out_t s' :
  balance graphs targets estimator ratio s = Ok (out_g, out_t, s') →
  ∃ mj mn preds s1,
    majority_class (class_scan targets) = Some mj ∧
    minority_class (class_scan targets) = Some mn ∧
    balance_preds estimator (groupby_first (zip targets graphs) mj).*2 s
    = Ok (preds, s1) ∧
    zip out_g out_t ≡ₚ balanced graphs targets preds ratio mj mn ∧
    length out_g = length out_t.
Proof.
  intros Hok. pose proof Hok as Hok'. unfold balance in Hok'.
  destruct (getitem _ (majority_class (class_scan targets)))
    as [[mj maj_items]|] eqn:Hgmj; [|done].
  destruct (getitem _ (minority_class (class_scan targets)))
    as [[mn min_items]|] eqn:Hgmn; [|done].
  simpl in Hok'.
  destruct (balance_preds estimator maj_items.*2 s)
    as [[preds s1]|] eqn:Hpreds; [|done].
  clear Hok'.
  apply getitem_inv in Hgmj as (Hmj & -> & Hnemj).
  apply getitem_inv in Hgmn as (Hmn & -> & Hnemn).
  destruct (balance_run graphs targets estimator ratio s mj mn preds s1)
    as (o1 & o2 & t & Heq & Hp & Hl); [done..|].
  rewrite Heq in Hok. simplify_eq. by exists mj, mn, preds, s1.
Qed.
End balance_facts.

(** ** The sampler keeps the hard boundary *)

Section balance_margin.
Context {G T X M F : Type} `{EqDecision T} `{!PyDict T} `{!PyOrd G}
        `{!Backend G T X M} `{!PyFloat F}.
Implicit Types (graphs : list G) (targets : list T).

Lemma balance_returns graphs targets (estimator : option (EdenEstimator F M))
    ratio s :
  per_sample estimator →
  length graphs = length targets →
  (∃ k, k ∈ targets ∧ Counter targets k < 1000000) →
  ∃ mj mn preds s1 out_g out_t s',
    majority_class (class_scan targets) = Some mj ∧
    minority_class (class_scan targets) = Some mn ∧
    balance_preds estimator (groupby_first (zip targets graphs) mj).*2 s
    = Ok (preds, s1) ∧
    balance graphs targets estimator ratio s = Ok (out_g, out_t, s') ∧
    zip out_g out_t ≡ₚ balanced graphs targets preds ratio mj mn ∧
    length out_g = length out_t.
Proof.
  intros Hper Hlen Hsmall.
  assert (targets ≠ []) as Hne.
  { destruct Hsmall as (k & Hk & _). intros ->. by apply not_elem_of_nil in Hk. }
  destruct (class_scan_majority targets Hne) as (mj & Hmj & Hinmj & _).
  destruct (class_scan_minority targets Hsmall) as (mn & Hmn & Hinmn & _).
  assert ((zip targets graphs).*1 = targets) as Hfst by (apply fst_zip; lia).
  destruct (balance_preds_Ok estimator
              (groupby_first (zip targets graphs) mj).*2 s Hper)
    as (preds & s1 & Hpreds & _).
  destruct (balance_run graphs targets estimator ratio s mj mn preds s1)
    as (out_g & out_t & s' & Heq & Hp & Hl); [done..| | |done|].
  - apply groupby_first_ne. by rewrite Hfst.
  - apply groupby_first_ne. by rewrite Hfst.
  - by exists mj, mn, preds, s1, out_g, out_t, s'.
Qed.

(** C1.  With a margin estimator that gives one decision value for each
    graph, [balance] keeps the majority graphs of smallest absolute
    decision value: whenever it returns, the majority graphs paired with
    their absolute decision values split into the kept ones, which are
    the majority part of the output (all of the output that bears the
    majority label, when the minority class is another class), and the
    dropped ones, and no kept one has a larger absolute decision value
    than a dropped one.  It does
    return when the sequences have the same length and some class has
    fewer than 10^6 members. *)
Theorem balance_keeps_smallest_margins graphs targets
    (estimator : EdenEstimator F M) ratio s :
  per_sample (Some estimator) →
  (length graphs = length targets →
   (∃ k, k ∈ targets ∧ Counter targets k < 1000000) →
   is_Ok (balance graphs targets (Some estimator) ratio s)) ∧
  ∀ out_g out_t s',
    balance graphs targets (Some estimator) ratio s = Ok (out_g, out_t, s') →
    ∃ mj mn preds kept dropped,
      majority_class (class_scan targets) = Some mj ∧
      minority_class (class_scan targets) = Some mn ∧
      let maj_graphs := (groupby_first (zip targets graphs) mj).*2 in
      let min_graphs := (groupby_first (zip targets graphs) mn).*2 in
      let margins := Z.abs <$> preds in
      decision_function estimator maj_graphs = Ok preds ∧
      zip margins maj_graphs ≡ₚ kept ++ dropped ∧
      maj_graphs ≡ₚ (kept ++ dropped).*2 ∧
      zip out_g out_t ≡ₚ
        ((λ g, (g, mn)) <$> min_graphs) ++ ((λ pg, (pg.2, mj)) <$> kept) ∧
      (mj ≠ mn →
       filter (λ p, p.2 = mj) (zip out_g out_t) ≡ₚ (λ pg, (pg.2, mj)) <$> kept) ∧
      ∀ a b, a ∈ kept → b ∈ dropped → a.1 ≤ b.1.
Proof.
  intros Hper. split.
  - intros Hlen Hsmall.
    destruct (balance_returns graphs targets (Some estimator) ratio s
                Hper Hlen Hsmall)
      as (mj & mn & preds & s1 & out_g & out_t & s' & _ & _ & _ & Heq & _).
    by exists (out_g, out_t, s').
  - intros out_g out_t s' Hok.
    apply balance_inv in Hok as (mj & mn & preds & s1 & Hmj & Hmn & Hpreds & Hp & Hl).
    pose proof (length_balance_preds _ _ _ _ _ Hper Hpreds) as Hlp.
    unfold balanced, select_majority in Hp. simpl in Hp, Hpreds.
    set (maj_graphs := (groupby_first (zip targets graphs) mj).*2) in *.
    destruct (decision_function estimator maj_graphs) as [preds'|] eqn:Hdf;
      [|done].
    simpl in Hpreds. simplify_eq.
    set (margins := Z.abs <$> preds) in *.
    set (desired_size := int_mul (min_count (class_scan targets)) ratio) in *.
    exists mj, mn, preds, (slice_to desired_size (sorted tuple_lt (zip margins maj_graphs))),
      (drop (slice_len desired_size (length (zip margins maj_graphs)))
            (sorted tuple_lt (zip margins maj_graphs))).
    assert (slice_to desired_size (sorted tuple_lt (zip margins maj_graphs)) ++
            drop (slice_len desired_size (length (zip margins maj_graphs)))
              (sorted tuple_lt (zip margins maj_graphs))
            ≡ₚ zip margins maj_graphs) as Hsplit.
    { rewrite <-(length_sorted tuple_lt), <-slice_to_split.
      apply sorted_perm. }
    cbv zeta. fold maj_graphs margins.
    split_and!; [done|done|done| |..].
    + by rewrite Hsplit.
    + rewrite Hsplit, snd_zip; [done|].
      unfold margins. rewrite length_fmap, Hlp. done.
    + rewrite Hp. by rewrite <-list_fmap_compose.
    + intros Hne. rewrite Hp, filter_app, !filter_label_fmap.
      rewrite decide_False, decide_True by done. done.
    + intros a b Ha Hb.
      assert (Transitive (λ a b : Z * G, a.1 ≤ b.1)) as Htrans
        by (intros x y z; lia).
      apply (sorted_slice_le tuple_lt (λ a b, a.1 ≤ b.1)
               tuple_lt_true tuple_lt_false desired_size _ a b Ha Hb).
Qed.
End balance_margin.

(** ** Class counts of the balanced dataset *)

Section balance_counts.
Context {G T X M F : Type} `{EqDecision T} `{!PyDict T} `{!PyOrd G}
        `{!Backend G T X M} `{!PyFloat F}.
Implicit Types (graphs : list G) (targets : list T).

Lemma slice_to_subseteq {A} (k : Z) (l : list A) : slice_to k l ⊆ l.
Proof. rewrite slice_to_take. apply subseteq_take. Qed.

Lemma snd_fmap_pair_const {A B C} (f : A → B) (c : C) (l : list A) :
  ((λ x, (f x, c)) <$> l).*2 = replicate (length l) c.
Proof. induction l as [|a l IH]; csimpl; [done|]. by f_equal. Qed.

Lemma length_select_majority (preds : list Z) (maj_graphs : list G) desired_size :
  length preds = length maj_graphs →
  length (select_majority preds maj_graphs desired_size)
  = slice_len desired_size (length maj_graphs).
Proof.
  intros Hl. unfold select_majority.
  rewrite length_slice_to, length_sorted, length_zip_with_r_eq; [done|].
  by rewrite length_fmap.
Qed.

Lemma select_majority_graphs (preds : list Z) (maj_graphs : list G)
    desired_size pg :
  pg ∈ select_majority preds maj_graphs desired_size → pg.2 ∈ maj_graphs.
Proof.
  unfold select_majority. intros Hin%slice_to_subseteq.
  rewrite sorted_perm in Hin. destruct pg as [p g]. simpl.
  by apply elem_of_zip_r in Hin.
Qed.

Lemma balanced_input_pairs graphs targets preds (ratio : Number F) mj mn g t :
  (g, t) ∈ balanced graphs targets preds ratio mj mn →
  (t, g) ∈ zip targets graphs.
Proof.
  unfold balanced.
  intros [Hin|Hin]%elem_of_app; apply list_elem_of_fmap in Hin as (x & [= -> ->] & Hx).
  - apply groupby_first_label in Hx as [<- Hx]. by destruct x.
  - apply select_majority_graphs, list_elem_of_fmap in Hx as ([t' g'] & Hg & Hy).
    simpl in Hg. apply groupby_first_label in Hy as [<- Hy]. by rewrite Hg.
Qed.

Lemma balanced_minority graphs targets preds (ratio : Number F) mj mn g :
  (mn, g) ∈ zip targets graphs →
  (g, mn) ∈ balanced graphs targets preds ratio mj mn.
Proof.
  intros Hin. unfold balanced. apply elem_of_app. left.
  apply list_elem_of_fmap. exists (mn, g). split; [done|].
  by apply list_elem_of_filter.
Qed.

Lemma balanced_labels graphs targets preds (ratio : Number F) mj mn :
  length graphs = length targets →
  length preds = length (groupby_first (zip targets graphs) mj).*2 →
  (balanced graphs targets preds ratio mj mn).*2
  = replicate (Z.to_nat (Counter targets mn)) mn ++
    replicate (slice_len (int_mul (min_count (class_scan targets)) ratio)
                 (Z.to_nat (Counter targets mj))) mj.
Proof.
  intros Hlen Hper. unfold balanced.
  assert ((zip targets graphs).*1 = targets) as Hfst by (apply fst_zip; lia).
  assert (∀ y, length (groupby_first (zip targets graphs) y)
               = Z.to_nat (Counter targets y)) as Hgrp.
  { intros y. rewrite <-Hfst at 2. rewrite <-length_groupby_first. lia. }
  rewrite fmap_app, !snd_fmap_pair_const, Hgrp.
  rewrite length_select_majority, length_fmap, Hgrp; done.
Qed.

Lemma balance_targets graphs targets (estimator : option (EdenEstimator F M))
    ratio s :
  length graphs = length targets →
  (∃ k, k ∈ targets ∧ Counter targets k < 1000000) →
  per_sample estimator →
  ∃ mj mn out_g out_t s',
    balance graphs targets estimator ratio s = Ok (out_g, out_t, s') ∧
    majority_class (class_scan targets) = Some mj ∧
    minority_class (class_scan targets) = Some mn ∧
    mj ∈ targets ∧ mn ∈ targets ∧
    (∀ k, k ∈ targets →
       Counter targets mn ≤ Counter targets k ≤ Counter targets mj) ∧
    length out_g = length out_t ∧
    out_t ≡ₚ replicate (Z.to_nat (Counter targets mn)) mn ++
             replicate (slice_len (int_mul (Counter targets mn) ratio)
                          (Z.to_nat (Counter targets mj))) mj ∧
    (∀ g t, (g, t) ∈ zip out_g out_t → (t, g) ∈ zip targets graphs) ∧
    (∀ g, (mn, g) ∈ zip targets graphs → (g, mn) ∈ zip out_g out_t).
Proof.
  intros Hlen Hsmall Hper.
  destruct (balance_returns graphs targets estimator ratio s Hper Hlen Hsmall)
    as (mj & mn & preds & s1 & out_g & out_t & s' & Hmj & Hmn & Hpreds & Heq
        & Hp & Hl).
  pose proof (length_balance_preds _ _ _ _ _ Hper Hpreds) as Hlp.
  assert (targets ≠ []) as Hne.
  { destruct Hsmall as (k & Hk & _). intros ->. by apply not_elem_of_nil in Hk. }
  destruct (class_scan_majority targets Hne) as (mj' & Hmj' & Hinmj & _ & Hmax).
  destruct (class_scan_minority targets Hsmall)
    as (mn' & Hmn' & Hinmn & Hmin_count & Hmin).
  rewrite Hmj in Hmj'. rewrite Hmn in Hmn'. simplify_eq.
  exists mj', mn', out_g, out_t, s'.
  split_and!; try done.
  - intros k Hk. split; [by apply Hmin|by apply Hmax].
  - destruct (zip_Permutation_snd out_g out_t _ Hl Hp) as [Ht _].
    rewrite Ht, balanced_labels by done. by rewrite Hmin_count.
  - intros g t Hin. rewrite Hp in Hin. by eapply balanced_input_pairs.
  - intros g Hin. rewrite Hp. by apply balanced_minority.
Qed.
End balance_counts.

Section balance_claims.
Context {G T X M F : Type} `{EqDecision T} `{!PyDict T} `{!PyOrd G}
        `{!Backend G T X M} `{!PyFloat F}.
Implicit Types (graphs : list G) (targets : list T).

Lemma balance_class_counts graphs targets
    (estimator : option (EdenEstimator F M)) ratio s :
  length graphs = length targets →
  per_sample estimator →
  0 ≤ int_mul (min_count (class_scan targets)) ratio →
  (∃ k, k ∈ targets ∧ Counter targets k < 1000000) →
  (∃ k1 k2, k1 ∈ targets ∧ k2 ∈ targets ∧
            Counter targets k1 ≠ Counter targets k2) →
  ∃ mj mn out_g out_t s',
    balance graphs targets estimator ratio s = Ok (out_g, out_t, s') ∧
    mj ∈ targets ∧ mn ∈ targets ∧
    (∀ k, k ∈ targets →
       Counter targets mn ≤ Counter targets k ≤ Counter targets mj) ∧
    Counter out_t mj
    = Z.min (int_mul (Counter targets mn) ratio) (Counter targets mj) ∧
    Counter out_t mn = Counter targets mn ∧
    length out_g = length out_t ∧
    Z.of_nat (length out_t) = Counter out_t mn + Counter out_t mj.
Proof.
  intros Hlen Hper Hratio Hsmall (k1 & k2 & Hk1 & Hk2 & Hdiff).
  destruct (balance_targets graphs targets estimator ratio s Hlen Hsmall Hper)
    as (mj & mn & out_g & out_t & s' & Heq & _ & Hmn & Hinmj & Hinmn & Hbound
        & Hl & Ht & _).
  destruct (class_scan_minority targets Hsmall) as (mn' & Hmn' & _ & Hmc & _).
  rewrite Hmn in Hmn'. injection Hmn' as <-. rewrite Hmc in Hratio.
  assert (mn ≠ mj) as Hne.
  { intros ->. pose proof (Hbound k1 Hk1). pose proof (Hbound k2 Hk2). lia. }
  pose proof (Counter_nonneg targets mn) as Hmn0.
  pose proof (Counter_nonneg targets mj) as Hmj0.
  assert (Counter out_t mj
          = Z.min (int_mul (Counter targets mn) ratio) (Counter targets mj))
    as Hcmj.
  { rewrite (Counter_perm _ _ _ Ht), Counter_app.
    rewrite Counter_replicate_ne, Counter_replicate_eq by done.
    rewrite slice_len_nonneg by lia. lia. }
  assert (Counter out_t mn = Counter targets mn) as Hcmn.
  { rewrite (Counter_perm _ _ _ Ht), Counter_app.
    rewrite Counter_replicate_eq, Counter_replicate_ne by (by intros ->). lia. }
  exists mj, mn, out_g, out_t, s'. split_and!; try done.
  rewrite Hcmj, Hcmn, Ht, length_app, !length_replicate.
  pose proof (slice_len_nonneg (int_mul (Counter targets mn) ratio)
                (Z.to_nat (Counter targets mj))). lia.
Qed.

Lemma balance_one_class graphs targets
    (estimator : option (EdenEstimator F M)) ratio s c :
  length graphs = length targets →
  per_sample estimator →
  (∃ k, k ∈ targets ∧ Counter targets k < 1000000) →
  majority_class (class_scan targets) = Some c →
  minority_class (class_scan targets) = Some c →
  ∃ out_g out_t s',
    balance graphs targets estimator ratio s = Ok (out_g, out_t, s') ∧
    length out_g = length out_t ∧
    out_t = replicate (Z.to_nat (Counter targets c) +
                       slice_len (int_mul (Counter targets c) ratio)
                         (Z.to_nat (Counter targets c))) c ∧
    (∀ g, (c, g) ∈ zip targets graphs → g ∈ out_g).
Proof.
  intros Hlen Hper Hsmall Hmj Hmn.
  destruct (balance_targets graphs targets estimator ratio s Hlen Hsmall Hper)
    as (mj & mn & out_g & out_t & s' & Heq & Hmj' & Hmn' & _ & _ & _
        & Hl & Ht & _ & Hkeep).
  rewrite Hmj in Hmj'. rewrite Hmn in Hmn'. simplify_eq.
  exists out_g, out_t, s'. split_and!; try done.
  - rewrite <-replicate_add in Ht. symmetry in Ht.
    by apply replicate_Permutation in Ht.
  - intros g Hg%Hkeep. by apply elem_of_zip_l in Hg.
Qed.

(** C8, as the code has it.  [balance] raises nothing on a single-class
    dataset of fewer than 10^6 items: it returns a dataset in which every
    label is that class and every input graph is present, of at least as
    many and at most twice as many items as the input. *)
Theorem balance_single_class graphs targets
    (estimator : option (EdenEstimator F M)) ratio s c :
  targets ≠ [] →
  (∀ t, t ∈ targets → t = c) →
  length graphs = length targets →
  Z.of_nat (length targets) < 1000000 →
  per_sample estimator →
  ∃ out_g out_t s',
    balance graphs targets estimator ratio s = Ok (out_g, out_t, s') ∧
    (∀ t, t ∈ out_t → t = c) ∧
    length out_g = length out_t ∧
    (length targets ≤ length out_t ≤ 2 * length targets)%nat ∧
    (∀ g, g ∈ graphs → g ∈ out_g).
Proof.
  intros Hne Hall Hlen Hsize Hper.
  assert (c ∈ targets) as Hc.
  { destruct targets as [|t targets]; [done|].
    rewrite <-(Hall t) by left. left. }
  assert (Counter targets c = Z.of_nat (length targets)) as Hcount.
  { unfold Counter. f_equal. f_equal.
    clear -Hall. induction targets as [|t targets IH]; [done|].
    rewrite filter_cons_True by (apply Hall; left).
    rewrite IH; [done|]. intros t' Ht'. apply Hall. by right. }
  assert (∃ k, k ∈ targets ∧ Counter targets k < 1000000) as Hsmall
    by (exists c; split; [done|lia]).
  destruct (class_scan_majority targets Hne) as (mj & Hmj & Hinmj & _).
  destruct (class_scan_minority targets Hsmall) as (mn & Hmn & Hinmn & _).
  rewrite (Hall mj Hinmj) in Hmj. rewrite (Hall mn Hinmn) in Hmn.
  destruct (balance_one_class graphs targets estimator ratio s c
              Hlen Hper Hsmall Hmj Hmn)
    as (out_g & out_t & s' & Heq & Hl & Ht & Hkeep).
  exists out_g, out_t, s'. split_and!; try done.
  - intros t. rewrite Ht. apply elem_of_replicate_inv.
  - rewrite Ht, length_replicate. lia.
  - rewrite Ht, length_replicate, Hcount.
    unfold slice_len. destruct (_ <? 0); lia.
  - intros g [i Hg]%list_elem_of_lookup. apply Hkeep.
    destruct (lookup_lt_is_Some_2 targets i) as [t Ht'].
    { rewrite <-Hlen. by eapply lookup_lt_Some. }
    rewrite <-(Hall t) by (by eapply list_elem_of_lookup_2).
    apply list_elem_of_lookup. exists i.
    apply lookup_zip_with_Some. by exists t, g.
Qed.
End balance_claims.

(** ** The scenarios of the sampler *)

Lemma per_sample_None {G T X M F} `{!Backend G T X M} :
  per_sample (G:=G) (T:=T) (X:=X) (M:=M) (F:=F) None.
Proof. by intros e graphs. Qed.

Lemma toy_per_sample (estimator : option (EdenEstimator (Z * Z) Z)) :
  per_sample (G:=Z) (T:=Z) estimator.
Proof.
  intros e graphs _. unfold decision_function, transform. simpl.
  eexists. split; [done|]. by rewrite length_fmap.
Qed.

Lemma int_mul_Int {F} `{!PyFloat F} (n k : Z) : int_mul n (Int k) = n * k.
Proof. done. Qed.

Lemma balance_scenario {G X M F} `{!PyDict Z} `{!PyOrd G} `{!Backend G Z X M}
    `{!PyFloat F} (g1 g2 g3 g4 g5 g6 : G)
    (estimator : option (EdenEstimator F M)) s :
  per_sample estimator →
  ∃ out_g out_t s',
    balance [g1; g2; g3; g4; g5; g6] [1; 1; 1; 1; 0; 0] estimator (Int 1) s
    = Ok (out_g, out_t, s') ∧
    length out_g = 4%nat ∧ length out_t = 4%nat ∧
    Counter out_t 0 = 2 ∧ Counter out_t 1 = 2.
Proof.
  intros Hper.
  assert (Counter [1; 1; 1; 1; 0; 0] 1 = 4) as H1 by reflexivity.
  assert (Counter [1; 1; 1; 1; 0; 0] 0 = 2) as H0 by reflexivity.
  destruct (balance_class_counts [g1; g2; g3; g4; g5; g6] [1; 1; 1; 1; 0; 0]
              estimator (Int 1) s)
    as (mj & mn & out_g & out_t & s' & Heq & Hmj & Hmn & Hbound
        & Hcmj & Hcmn & Hl & Hlen); [done|done| |..].
  { rewrite int_mul_Int.
    destruct (class_scan_inv [1; 1; 1; 1; 0; 0]) as (_ & Hmin & _).
    destruct (minority_class _) as [mn|].
    - destruct Hmin as (_ & -> & _). pose proof (Counter_nonneg [1; 1; 1; 1; 0; 0] mn). lia.
    - destruct Hmin as [-> _]. lia. }
  { exists 0. split; [in_list|]. rewrite H0. lia. }
  { exists 1, 0. split_and!; [in_list..|]. rewrite H1, H0. lia. }
  assert (mj = 1) as ->.
  { assert (mj = 1 ∨ mj = 0) as [->| ->]
      by (label_cases Hmj; auto); [done|].
    specialize (Hbound 1). rewrite H1, H0 in Hbound.
    assert (1 ∈ [1; 1; 1; 1; 0; 0]) as Hin by in_list.
    apply Hbound in Hin. lia. }
  assert (mn = 0) as ->.
  { assert (mn = 1 ∨ mn = 0) as [->| ->]
      by (label_cases Hmn; auto); [|done].
    specialize (Hbound 0). rewrite H1, H0 in Hbound.
    assert (0 ∈ [1; 1; 1; 1; 0; 0]) as Hin by in_list.
    apply Hbound in Hin. lia. }
  rewrite H1, H0, int_mul_Int in *.
  exists out_g, out_t, s'. split_and!; [done|lia|lia|lia|lia].
Qed.

(** C2, as the code has it.  When the sequences have the same length, the
    desired size [int(min_count * ratio)] is not negative, as it is for
    every ratio that is not negative, integer or float, the class counts
    are not all equal and the smallest is below 10^6, [balance] returns a
    dataset that holds the whole minority class and
    [min(int(minority_count * ratio), majority_count)] members of the
    majority class, and nothing else.  On the labels [1,1,1,1,0,0] with
    ratio 1 it returns exactly 4 items, 2 of each class. *)
Theorem balance_majority_count :
  (∀ (G T X M F : Type) (E : EqDecision T) (D : PyDict T) (O : PyOrd G)
     (B : Backend G T X M) (P : PyFloat F) (graphs : list G)
     (targets : list T) (estimator : option (EdenEstimator F M))
     (ratio : Number F) (s : RandomState),
     length graphs = length targets →
     per_sample estimator →
     0 ≤ int_mul (min_count (class_scan targets)) ratio →
     (∃ k, k ∈ targets ∧ Counter targets k < 1000000) →
     (∃ k1 k2, k1 ∈ targets ∧ k2 ∈ targets ∧
               Counter targets k1 ≠ Counter targets k2) →
     ∃ mj mn out_g out_t s',
       balance graphs targets estimator ratio s = Ok (out_g, out_t, s') ∧
       mj ∈ targets ∧ mn ∈ targets ∧
       (∀ k, k ∈ targets →
          Counter targets mn ≤ Counter targets k ≤ Counter targets mj) ∧
       Counter out_t mj
       = Z.min (int_mul (Counter targets mn) ratio) (Counter targets mj) ∧
       Counter out_t mn = Counter targets mn ∧
       length out_g = length out_t ∧
       Z.of_nat (length out_t) = Counter out_t mn + Counter out_t mj) ∧
  (∀ (G X M F : Type) (D : PyDict Z) (O : PyOrd G) (B : Backend G Z X M)
     (P : PyFloat F) (g1 g2 g3 g4 g5 g6 : G)
     (estimator : option (EdenEstimator F M)) (s : RandomState),
     per_sample estimator →
     ∃ out_g out_t s',
       balance [g1; g2; g3; g4; g5; g6] [1; 1; 1; 1; 0; 0] estimator (Int 1) s
       = Ok (out_g, out_t, s') ∧
       length out_g = 4%nat ∧ length out_t = 4%nat ∧
       Counter out_t 0 = 2 ∧ Counter out_t 1 = 2).
Proof.
  split.
  - intros. by apply balance_class_counts.
  - intros. by apply balance_scenario.
Qed.

(** Three graphs of the minority class, six of the majority class and
    the ratio 1.5, the fraction 3/2: [int(3 * 1.5)] is 4. *)
Lemma balance_majority_count_witness :
  ∃ mj mn out_g out_t s',
    balance [10; 11; 12; 13; 14; 15; 16; 17; 18] [1; 1; 1; 1; 1; 1; 0; 0; 0]
      (None : option (EdenEstimator (Z * Z) Z)) (Float (3, 2)) count_up
    = Ok (out_g, out_t, s') ∧
    mj ∈ [1; 1; 1; 1; 1; 1; 0; 0; 0] ∧ mn ∈ [1; 1; 1; 1; 1; 1; 0; 0; 0] ∧
    (∀ k, k ∈ [1; 1; 1; 1; 1; 1; 0; 0; 0] →
       Counter [1; 1; 1; 1; 1; 1; 0; 0; 0] mn
       ≤ Counter [1; 1; 1; 1; 1; 1; 0; 0; 0] k
       ≤ Counter [1; 1; 1; 1; 1; 1; 0; 0; 0] mj) ∧
    Counter out_t mj
    = Z.min (int_mul (Counter [1; 1; 1; 1; 1; 1; 0; 0; 0] mn) (Float (3, 2)))
            (Counter [1; 1; 1; 1; 1; 1; 0; 0; 0] mj) ∧
    Counter out_t mn = Counter [1; 1; 1; 1; 1; 1; 0; 0; 0] mn ∧
    length out_g = length out_t ∧
    Z.of_nat (length out_t) = Counter out_t mn + Counter out_t mj.
Proof.
  apply (proj1 balance_majority_count Z Z (Z * list Z)%type Z (Z * Z)%type
           _ _ _ _ _).
  - reflexivity.
  - apply per_sample_None.
  - vm_compute. discriminate.
  - exists 0. split; [by repeat constructor|vm_compute; reflexivity].
  - exists 1, 0. split_and!; [by repeat constructor..|vm_compute; discriminate].
Defined.

(** The same dataset in numbers: four of the six majority graphs are
    kept. *)
Example balance_float_ratio :
  ∃ out_g out_t,
    outcome (balance [10; 11; 12; 13; 14; 15; 16; 17; 18]
               [1; 1; 1; 1; 1; 1; 0; 0; 0]
               (None : option (EdenEstimator (Z * Z) Z)) (Float (3, 2))
               count_up)
    = Ok (out_g, out_t) ∧
    Counter out_t 1 = 4 ∧ Counter out_t 0 = 3 ∧ length out_g = 7%nat.
Proof. vm_compute. by eexists _, _. Qed.

(** Against C2 as stated: with three graphs of the majority class, two of
    the minority class and ratio 2, the output holds 3 graphs of the
    majority class, and [int(2 * 2)] is 4. *)
Lemma balance_majority_count_short :
  ∃ out_g out_t,
    outcome (balance [10; 11; 12; 13; 14] [1; 1; 1; 0; 0]
               (None : option (EdenEstimator (Z * Z) Z)) (Int 2) count_up)
    = Ok (out_g, out_t) ∧
    Counter out_t 1 = 3 ∧ int_mul (Counter [1; 1; 1; 0; 0] 0) (Int 2) = 4.
Proof. by exists [14; 12; 10; 13; 11], [0; 1; 1; 0; 1]. Qed.

Lemma balance_single_class_witness :
  ∃ out_g out_t s',
    balance [10; 11; 12] [1; 1; 1] (None : option (EdenEstimator (Z * Z) Z))
      (Int 2) count_up
    = Ok (out_g, out_t, s') ∧
    (∀ t, t ∈ out_t → t = 1) ∧
    length out_g = length out_t ∧
    (length [1; 1; 1] ≤ length out_t ≤ 2 * length [1; 1; 1])%nat ∧
    (∀ g, g ∈ [10; 11; 12] → g ∈ out_g).
Proof.
  apply (balance_single_class (G:=Z) (T:=Z)).
  - discriminate.
  - intros t Ht. repeat (apply elem_of_cons in Ht as [Ht|Ht]; [exact Ht|]).
    by apply not_elem_of_nil in Ht.
  - reflexivity.
  - simpl. lia.
  - apply per_sample_None.
Defined.

(** Against C8 as stated: on three graphs of one class no exception is
    raised, and six items of that class are returned. *)
Lemma balance_single_class_no_error :
  outcome (balance [10; 11; 12] [1; 1; 1]
             (None : option (EdenEstimator (Z * Z) Z)) (Int 2) count_up)
  = Ok ([12; 12; 10; 11; 11; 10], [1; 1; 1; 1; 1; 1]).
Proof. reflexivity. Qed.

(** The scenario of the spec with the toy classifier, whose decision
    value is the graph itself: the two majority graphs of smallest
    absolute value are kept. *)
Example balance_scenario_margins :
  outcome (balance [10; -11; 12; -13; 14; 15] [1; 1; 1; 1; 0; 0]
             (Some toy_estimator) (Int 1) count_up)
  = Ok ([10; -11; 15; 14], [1; 1; 0; 0]).
Proof. reflexivity. Qed.

(** Two classes of two graphs each, in the order in which Python 2
    iterates the keys [0] and [1]. *)
Example balance_tied_classes_toy :
  outcome (balance [10; 11; 12; 13] [1; 1; 0; 0]
             (None : option (EdenEstimator (Z * Z) Z)) (Int 1) count_up)
  = Ok ([13; 13; 12; 12], [0; 0; 0; 0]).
Proof. reflexivity. Qed.

(** C9, where the code departs from it.  On the labels [1,1,0,0] the two
    classes have the same count, the loop of [balance] takes the first
    class met as the majority and as the minority class, and the four
    items returned bear that one label: the count of the minority class
    is not kept, and the other class is lost. *)
Theorem balance_tied_classes_one_label {G X M F} `{!PyDict Z} `{!PyOrd G}
    `{!Backend G Z X M} `{!PyFloat F} (g1 g2 g3 g4 : G) (s : RandomState) :
  ∃ c out_g s',
    balance [g1; g2; g3; g4] [1; 1; 0; 0]
      (None : option (EdenEstimator F M)) (Int 1) s
    = Ok (out_g, [c; c; c; c], s') ∧
    length out_g = 4%nat ∧ (c = 0 ∨ c = 1).
Proof.
  assert (Counter [1; 1; 0; 0] 1 = 2) as H1 by reflexivity.
  assert (Counter [1; 1; 0; 0] 0 = 2) as H0 by reflexivity.
  assert (∀ k, k ∈ [1; 1; 0; 0] → Counter [1; 1; 0; 0] k = 2) as Hcount.
  { intros k Hk. assert (k = 1 ∨ k = 0) as [->| ->]
      by (label_cases Hk; auto); done. }
  destruct (class_scan_majority [1; 1; 0; 0]) as (c & Hmj & Hc & _); [done|].
  pose proof (class_scan_tie [1; 1; 0; 0]) as Htie.
  rewrite Hmj in Htie.
  destruct (balance_one_class [g1; g2; g3; g4] [1; 1; 0; 0]
              (None : option (EdenEstimator F M)) (Int 1) s c)
    as (out_g & out_t & s' & Heq & Hl & Ht & _).
  - done.
  - apply per_sample_None.
  - exists c. split; [done|]. rewrite Hcount by done. lia.
  - done.
  - symmetry. apply Htie.
    + intros k Hk. rewrite Hcount by done. lia.
    + intros k1 k2 Hk1 Hk2. by rewrite !Hcount.
  - rewrite Hcount in Ht by done. simpl in Ht. subst out_t.
    exists c, out_g, s'. split_and!; [done|done|].
    label_cases Hc; auto.
Qed.

Lemma balance_keeps_smallest_margins_witness :
  is_Ok (balance [10; -11; 12; -13; 14; 15] [1; 1; 1; 1; 0; 0]
           (Some toy_estimator) (Int 1) count_up).
Proof.
  apply (proj1 (balance_keeps_smallest_margins
                  [10; -11; 12; -13; 14; 15] [1; 1; 1; 1; 0; 0]
                  toy_estimator (Int 1) count_up (toy_per_sample _))).
  - reflexivity.
  - exists 0. split; [in_list|vm_compute; reflexivity].
Defined.

(** ** Stratified subsampling *)

Section subsample_facts.
Context {G T X M F : Type} `{EqDecision T} `{!PyDict T} `{!PyOrd G}
        `{!Backend G T X M} `{!PyFloat F}.
Implicit Types (graphs : list G) (targets : list T) (tg : list (T * G)).

Lemma subsample_fold tg size ks (subgraphs : list G) (subtargets : list T) :
  length subgraphs = length subtargets →
  ∃ gs ts,
    foldl (subsample_class (groupby_first tg) size) (subgraphs, subtargets) ks
    = (gs, ts) ∧
    length gs = length ts ∧
    zip gs ts = zip subgraphs subtargets ++ (ks ≫= class_sample tg size).
Proof.
  revert subgraphs subtargets.
  induction ks as [|y ks IH]; intros subgraphs subtargets Hl; simpl.
  { exists subgraphs, subtargets. by rewrite app_nil_r. }
  destruct (IH (subgraphs ++ (slice_to size (groupby_first tg y)).*2)
              (subtargets ++
               replicate (length (slice_to size (groupby_first tg y)).*2) y))
    as (gs & ts & Heq & Hl' & Hzip).
  { by rewrite !length_app, length_replicate, Hl. }
  exists gs, ts. split_and!; [done..|].
  rewrite Hzip, zip_with_app, zip_replicate_r by done.
  rewrite <-list_fmap_compose, <-app_assoc. done.
Qed.

Lemma class_sample_label tg size y p : p ∈ class_sample tg size y → p.2 = y.
Proof. unfold class_sample. by intros (x & -> & _)%list_elem_of_fmap. Qed.

Lemma class_sample_absent tg size y : y ∉ tg.*1 → class_sample tg size y = [].
Proof.
  intros Hy. unfold class_sample.
  assert (groupby_first tg y = []) as ->;
    [|unfold slice_to; destruct (size <? 0); by rewrite take_nil].
  apply length_zero_iff_nil, Nat2Z.inj.
  rewrite length_groupby_first. by apply Counter_zero.
Qed.

Lemma filter_class_samples tg size ks y :
  NoDup ks → (∀ k, k ∈ tg.*1 → k ∈ ks) →
  filter (λ p, p.2 = y) (ks ≫= class_sample tg size) = class_sample tg size y.
Proof.
  intros Hnd Hks.
  assert (∀ k, filter (λ p : G * T, p.2 = y) (class_sample tg size k)
               = if decide (k = y) then class_sample tg size k else []) as Hone.
  { intros k. unfold class_sample. apply filter_label_fmap. }
  assert (∀ ks', y ∉ ks' →
            filter (λ p : G * T, p.2 = y) (ks' ≫= class_sample tg size) = [])
    as Hnone.
  { induction ks' as [|k ks' IH]; intros Hy; [done|].
    rewrite bind_cons, filter_app, Hone, IH.
    - rewrite decide_False; [done|]. intros ->. apply Hy. left.
    - intros Hin. apply Hy. by right. }
  destruct (decide (y ∈ ks)) as [Hin|Hout]; cycle 1.
  { rewrite Hnone by done. symmetry. apply class_sample_absent. auto. }
  clear Hks. induction Hnd as [|k ks Hk Hnd IH]; [by apply not_elem_of_nil in Hin|].
  rewrite bind_cons, filter_app, Hone.
  destruct (decide (k = y)) as [->|Hne].
  - rewrite Hnone by done. apply app_nil_r.
  - apply elem_of_cons in Hin as [->|Hin]; [done|]. by rewrite IH.
Qed.

Lemma length_class_samples tg size ks :
  0 ≤ size →
  Z.of_nat (length (ks ≫= class_sample tg size)) ≤ Z.of_nat (length ks) * size.
Proof.
  intros Hsize. induction ks as [|y ks IH]; [simpl; lia|].
  rewrite bind_cons, length_app. unfold class_sample at 1.
  rewrite length_fmap, length_slice_to.
  pose proof (slice_len_nonneg size (length (groupby_first tg y)) Hsize).
  simpl length. lia.
Qed.

Lemma zip_fst_subseteq targets graphs k :
  k ∈ (zip targets graphs).*1 → k ∈ targets.
Proof.
  intros ([t g] & -> & Hin)%list_elem_of_fmap. by apply elem_of_zip_l in Hin.
Qed.

Lemma length_keys_zip targets graphs :
  (length (dict_keys (zip targets graphs).*1) ≤ length (remove_dups targets))%nat.
Proof.
  apply submseteq_length, NoDup_submseteq; [apply NoDup_dict_keys|].
  intros k Hk%elem_of_dict_keys_1%zip_fst_subseteq.
  by apply elem_of_remove_dups.
Qed.

(** C3, as the code has it.  When graphs and labels are not empty and at
    least one item for each class is asked for, [subsample] returns a
    dataset whose items of a label are the first [subsample_size /
    num_classes] items of that label met in the input, in some order;
    its length is at most [subsample_size] and each of its labels is a
    label of the input. *)
Theorem subsample_stratified graphs targets subsample_size s :
  graphs ≠ [] → targets ≠ [] →
  Z.of_nat (length (remove_dups targets)) ≤ subsample_size →
  ∃ out_g out_t s',
    subsample graphs targets subsample_size s = Ok (out_g, out_t, s') ∧
    length out_g = length out_t ∧
    (∀ y, filter (λ p, p.2 = y) (zip out_g out_t) ≡ₚ
          (λ x, (x.2, y)) <$>
            take (Z.to_nat
                    (subsample_size `div` Z.of_nat (length (remove_dups targets))))
                 (groupby_first (zip targets graphs) y)) ∧
    Z.of_nat (length out_t) ≤ subsample_size ∧
    (∀ t, t ∈ out_t → t ∈ targets).
Proof.
  intros Hg Ht Hsize. unfold subsample.
  set (tg := zip targets graphs).
  set (n := Z.of_nat (length (remove_dups targets))) in *.
  set (q := subsample_size `div` n).
  assert (0 < n) as Hn.
  { unfold n. destruct targets as [|t targets]; [done|].
    assert (t ∈ remove_dups (t :: targets)) as Hin
      by (apply elem_of_remove_dups; left).
    destruct (remove_dups (t :: targets)); [by apply not_elem_of_nil in Hin|].
    simpl. lia. }
  assert (1 ≤ q) as Hq by (apply Z.div_le_lower_bound; lia).
  destruct (subsample_fold tg q (dict_keys tg.*1) [] [])
    as (gs & ts & Hfold & Hl & Hzip); [done|].
  rewrite Hfold. simpl in Hzip.
  assert (zip gs ts ≠ []) as Hne.
  { rewrite Hzip. destruct targets as [|t targets], graphs as [|g graphs];
      try done.
    assert (t ∈ dict_keys tg.*1) as Hin by (apply elem_of_dict_keys_2; left).
    assert (∃ p, p ∈ class_sample tg q t) as [p Hin'].
    { unfold class_sample.
      assert (t ∈ tg.*1) as Hfst by (unfold tg; simpl; left).
      pose proof (groupby_first_ne tg t Hfst) as Hgrp.
      destruct (groupby_first tg t) as [|x l]; [done|].
      unfold slice_to. destruct (Z.ltb_spec q 0); [lia|].
      destruct (Z.to_nat q) as [|q'] eqn:Hq'; [lia|].
      eexists. simpl. left. }
    intros Hnil.
    assert (p ∈ dict_keys tg.*1 ≫= class_sample tg q) as Hbind
      by (apply list_elem_of_bind; eauto).
    rewrite Hnil in Hbind. by apply not_elem_of_nil in Hbind. }
  destruct (paired_shuffle_Ok gs ts s Hne) as (out_g & out_t & s' & Heq & Hp & Hl').
  rewrite Hzip in Hp.
  exists out_g, out_t, s'. split_and!; [done|done|..].
  - intros y. rewrite Hp, filter_class_samples.
    + unfold class_sample, slice_to. destruct (Z.ltb_spec q 0); [lia|done].
    + apply NoDup_dict_keys.
    + intros k. apply elem_of_dict_keys_2.
  - assert (length out_t = length (zip out_g out_t)) as ->
      by (rewrite length_zip_with_r_eq; done).
    rewrite Hp.
    pose proof (length_class_samples tg q (dict_keys tg.*1)) as Hlen.
    pose proof (length_keys_zip targets graphs) as Hkeys. fold tg in Hkeys.
    pose proof (Z.mul_div_le subsample_size n Hn) as Hdiv. fold q in Hdiv.
    specialize (Hlen ltac:(lia)). nia.
  - intros t Hin.
    destruct (zip_Permutation_snd out_g out_t _ Hl' Hp) as [Hout _].
    rewrite Hout in Hin.
    apply list_elem_of_fmap in Hin as ([g t'] & -> & Hin).
    apply list_elem_of_bind in Hin as (y & Hin & Hy).
    apply class_sample_label in Hin. simpl in Hin. subst t'.
    by apply elem_of_dict_keys_1, zip_fst_subseteq in Hy.
Qed.
End subsample_facts.

Lemma subsample_stratified_witness :
  ∃ out_g out_t s',
    subsample [10; 11; 12; 13; 14] [1; 1; 0; 0; 1] 5 count_up
    = Ok (out_g, out_t, s') ∧
    length out_g = length out_t ∧
    (∀ y, filter (λ p, p.2 = y) (zip out_g out_t) ≡ₚ
          (λ x, (x.2, y)) <$>
            take (Z.to_nat (5 `div` Z.of_nat (length (remove_dups [1; 1; 0; 0; 1]))))
                 (groupby_first (zip [1; 1; 0; 0; 1] [10; 11; 12; 13; 14]) y)) ∧
    Z.of_nat (length out_t) ≤ 5 ∧
    (∀ t, t ∈ out_t → t ∈ [1; 1; 0; 0; 1]).
Proof.
  apply (subsample_stratified (G:=Z) (T:=Z)).
  - discriminate.
  - discriminate.
  - vm_compute. discriminate.
Defined.

(** Against C3 as stated: a negative size is a slice that counts from the
    end, so that asking for [-1] items of two classes of two graphs gives
    two items; and asking for one item of two classes leaves nothing to
    shuffle. *)
Lemma subsample_negative_size :
  outcome (subsample [10; 11; 12; 13] [1; 1; 0; 0] (-1) count_up)
  = Ok ([10; 12], [1; 0]) ∧
  -1 < Z.of_nat (length [10; 12]) ∧
  outcome (subsample [10; 11; 12; 13] [1; 1; 0; 0] 1 count_up)
  = Raise ValueError.
Proof. split_and!; [reflexivity|simpl; lia|reflexivity]. Qed.

(** ** The shuffler on empty input *)

(** What the shuffler does on sequences that are not empty: the pairs of
    the zipped inputs, in some order, cut to the shorter input. *)
Lemma paired_shuffle_pairs {A B} (i1 : list A) (i2 : list B) s :
  i1 ≠ [] → i2 ≠ [] →
  ∃ o1 o2 s', paired_shuffle i1 i2 s = Ok (o1, o2, s') ∧
    zip o1 o2 ≡ₚ zip i1 i2 ∧
    length o1 = (length i1 `min` length i2)%nat ∧
    length o2 = (length i1 `min` length i2)%nat.
Proof.
  intros H1 H2.
  destruct (paired_shuffle_Ok i1 i2 s) as (o1 & o2 & s' & Heq & Hp & Hl).
  { by destruct i1, i2. }
  exists o1, o2, s'. split_and!; [done..| |].
  - rewrite <-(length_zip_with_l_eq pair o1 o2), Hp by lia.
    apply length_zip_with.
  - rewrite <-(length_zip_with_r_eq pair o1 o2), Hp by lia.
    apply length_zip_with.
Qed.

(** C5, where the code departs from it.  Two empty sequences have the
    same length, and [paired_shuffle] does not return two sequences for
    them: toolz's [unzip] gives an empty tuple, and unpacking it into two
    names raises [ValueError]. *)
Theorem paired_shuffle_empty_raises {A B} (s : RandomState) :
  paired_shuffle (@nil A) (@nil B) s = Raise ValueError.
Proof. reflexivity. Qed.

(** C10, where the code departs from it.  When the shorter of two
    sequences of different lengths is empty, [paired_shuffle] fails with
    [ValueError] instead of returning two empty sequences. *)
Theorem paired_shuffle_mismatch_raises {A B} (b : B) (i2 : list B)
    (s : RandomState) :
  paired_shuffle (@nil A) (b :: i2) s = Raise ValueError ∧
  paired_shuffle (b :: i2) (@nil A) s = Raise ValueError.
Proof. split; reflexivity. Qed.

(** ** The estimator *)

Section estimator_facts.
Context {G T X M F : Type} `{EqDecision T} `{!PyDict T} `{!PyOrd G}
        `{!Backend G T X M} `{!PyFloat F} `{!PyDict ParamKey}.
Implicit Types (self : EdenEstimator F M) (graphs : list G) (targets : list T).

(** C7.  [cross_val_score] returns the scores that scikit-learn's
    [cross_val_score] gives for the classifier of the estimator on the
    vectorized dataset, or the exception of the vectorizer or of
    scikit-learn, and leaves every attribute of the estimator as it
    was. *)
Theorem cross_val_score_frame self graphs target scoring cv :
  let '(scores, self') := cross_val_score self graphs target scoring cv in
  scores = (x ←! vectorize graphs (self_r self) (self_d self)
                   (self_discrete self) (self_n_jobs self);
            sk_cross_val_score (self_model self) x target cv scoring
                               (self_n_jobs self)) ∧
  self' = self ∧
  self_r self' = self_r self ∧
  self_d self' = self_d self ∧
  self_n_jobs self' = self_n_jobs self ∧
  self_discrete self' = self_discrete self ∧
  self_balance self' = self_balance self ∧
  self_subsample_size self' = self_subsample_size self ∧
  self_ratio self' = self_ratio self ∧
  self_model self' = self_model self.
Proof. unfold cross_val_score, transform. by repeat split. Qed.

Lemma same_settings_set_model self model :
  same_settings self (set_model self model).
Proof. by repeat split. Qed.

Lemma same_settings_model self estimator :
  same_settings self estimator →
  estimator = set_model self (self_model estimator).
Proof.
  destruct self, estimator. unfold same_settings, set_model. simpl.
  intros (-> & -> & -> & -> & -> & -> & ->). done.
Qed.

(** The last two steps of [fit]: the vectors, then the classifier. *)
Lemma fit_train self model graphs targets (s : RandomState) :
  (x ←! transform (set_model self model) graphs;
   model' ←! sgd_fit (self_model (set_model self model)) x targets;
   Ok (set_model (set_model self model) model', s))
  = (model' ←! train self model graphs targets;
     Ok (set_model self model', s)).
Proof.
  unfold train, transform. simpl.
  by destruct (vectorize graphs _ _ _ _) as [x|e].
Qed.

Lemma set_model_self self : set_model self (self_model self) = self.
Proof. by destruct self. Qed.

(** [fit] in terms of [train]. *)
Lemma fit_unfold self graphs targets randomize s :
  fit self graphs targets randomize s =
  if self_balance self then
    if randomize then
      '(bal_graphs, bal_targets, s) ←!
        balance graphs targets None (self_ratio self) s;
      model ←! train self (self_model self) bal_graphs bal_targets;
      Ok (set_model self model, s)
    else
      '(samp_graphs, samp_targets, s) ←!
        subsample graphs targets (self_subsample_size self) s;
      boot ←! train self (self_model self) samp_graphs samp_targets;
      '(bal_graphs, bal_targets, s) ←!
        balance graphs targets (Some (set_model self boot)) (self_ratio self) s;
      model ←! train self boot bal_graphs bal_targets;
      Ok (set_model self model, s)
  else
    model ←! train self (self_model self) graphs targets;
    Ok (set_model self model, s).
Proof.
  unfold fit. destruct (self_balance self); [destruct randomize|].
  - destruct (balance graphs targets None (self_ratio self) s)
      as [[[bal_graphs bal_targets] s2]|e]; [|done].
    cbn [bind]. rewrite <-(set_model_self self) at 1 2 3.
    by rewrite fit_train, !set_model_self.
  - destruct (subsample graphs targets (self_subsample_size self) s)
      as [[[samp_graphs samp_targets] s1]|e]; [|done].
    cbn [bind]. unfold train at 1. unfold transform at 1.
    destruct (vectorize samp_graphs _ _ _ _) as [x|e]; [|done].
    cbn [bind].
    destruct (sgd_fit (self_model self) x samp_targets) as [boot|e]; [|done].
    cbn [bind]. cbv zeta.
    change (self_ratio (set_model self boot)) with (self_ratio self).
    destruct (balance graphs targets (Some (set_model self boot))
                (self_ratio self) s1)
      as [[[bal_graphs bal_targets] s2]|e]; [|done].
    cbn [bind]. by rewrite fit_train.
  - rewrite <-(set_model_self self) at 1 2 3.
    by rewrite fit_train, !set_model_self.
Qed.

(** C6.  With balancing off, [fit] vectorizes the dataset as it is and
    trains the classifier on it.  With balancing on and [randomize] off,
    it subsamples, trains the classifier on the vectorized subsample,
    balances the dataset with the estimator that holds this classifier,
    and trains that classifier on the vectorized balanced dataset.  With
    balancing on and [randomize] on, it balances with no estimator and
    trains on the vectorized balanced dataset.  In each case the
    estimator returned holds the classifier trained last and the other
    attributes as they were, and an exception of the sampler, of the
    vectorizer or of the classifier at any step is the exception of
    [fit]. *)
Theorem fit_steps self graphs targets randomize s :
  (self_balance self = false →
   match train self (self_model self) graphs targets with
   | Raise e => fit self graphs targets randomize s = Raise e
   | Ok model =>
       ∃ self', fit self graphs targets randomize s = Ok (self', s) ∧
                self_model self' = model ∧ same_settings self self'
   end) ∧
  (self_balance self = true → randomize = false →
   match subsample graphs targets (self_subsample_size self) s with
   | Raise e => fit self graphs targets randomize s = Raise e
   | Ok (samp_graphs, samp_targets, s1) =>
       match train self (self_model self) samp_graphs samp_targets with
       | Raise e => fit self graphs targets randomize s = Raise e
       | Ok boot =>
           ∀ estimator,
             self_model estimator = boot → same_settings self estimator →
             match balance graphs targets (Some estimator) (self_ratio self)
                     s1 with
             | Raise e => fit self graphs targets randomize s = Raise e
             | Ok (bal_graphs, bal_targets, s2) =>
                 match train self boot bal_graphs bal_targets with
                 | Raise e => fit self graphs targets randomize s = Raise e
                 | Ok model =>
                     ∃ self',
                       fit self graphs targets randomize s = Ok (self', s2) ∧
                       self_model self' = model ∧ same_settings self self'
                 end
             end
       end
   end) ∧
  (self_balance self = true → randomize = true →
   match balance graphs targets None (self_ratio self) s with
   | Raise e => fit self graphs targets randomize s = Raise e
   | Ok (bal_graphs, bal_targets, s2) =>
       match train self (self_model self) bal_graphs bal_targets with
       | Raise e => fit self graphs targets randomize s = Raise e
       | Ok model =>
           ∃ self', fit self graphs targets randomize s = Ok (self', s2) ∧
                    self_model self' = model ∧ same_settings self self'
       end
   end).
Proof.
  rewrite fit_unfold. split_and!.
  - intros ->.
    destruct (train self (self_model self) graphs targets) as [model|e];
      [|done].
    exists (set_model self model). split_and!; [done..|].
    apply same_settings_set_model.
  - intros -> ->.
    destruct (subsample graphs targets (self_subsample_size self) s)
      as [[[samp_graphs samp_targets] s1]|e]; [|done].
    cbn [bind].
    destruct (train self (self_model self) samp_graphs samp_targets)
      as [boot|e]; [|done].
    cbn [bind]. intros estimator Hboot Hsame.
    rewrite (same_settings_model self estimator Hsame), Hboot.
    destruct (balance graphs targets (Some (set_model self boot))
                (self_ratio self) s1)
      as [[[bal_graphs bal_targets] s2]|e]; [|done].
    cbn [bind].
    destruct (train self boot bal_graphs bal_targets) as [model|e]; [|done].
    exists (set_model self model). split_and!; [done..|].
    apply same_settings_set_model.
  - intros -> ->.
    destruct (balance graphs targets None (self_ratio self) s)
      as [[[bal_graphs bal_targets] s2]|e]; [|done].
    cbn [bind].
    destruct (train self (self_model self) bal_graphs bal_targets)
      as [model|e]; [|done].
    exists (set_model self model). split_and!; [done..|].
    apply same_settings_set_model.
Qed.
End estimator_facts.

(** The toy classifier counts the labels that it is fitted to.  With
    balancing off these are the six labels of the dataset; with
    balancing on, the six of the balanced dataset, and before them, when
    [randomize] is off, the six of the subsample. *)
Lemma fit_steps_witness :
  (∃ self',
     fit toy_estimator [10; 11; 12; 13; 14; 15] [1; 1; 1; 1; 0; 0] true
       count_up
     = Ok (self', count_up) ∧
     self_model self' = 6 ∧ same_settings toy_estimator self') ∧
  (∃ self',
     fit toy_balanced [10; 11; 12; 13; 14; 15] [1; 1; 1; 1; 0; 0] true
       count_up
     = Ok (self', mkRandom (λ n, n) 9) ∧
     self_model self' = 6 ∧ same_settings toy_balanced self') ∧
  (∃ self',
     fit toy_balanced [10; 11; 12; 13; 14; 15] [1; 1; 1; 1; 0; 0] false
       count_up
     = Ok (self', mkRandom (λ n, n) 10) ∧
     self_model self' = 12 ∧ same_settings toy_balanced self').
Proof.
  split_and!.
  - exact (proj1 (fit_steps toy_estimator [10; 11; 12; 13; 14; 15]
                    [1; 1; 1; 1; 0; 0] true count_up) eq_refl).
  - pose proof (proj2 (proj2 (fit_steps toy_balanced [10; 11; 12; 13; 14; 15]
                                [1; 1; 1; 1; 0; 0] true count_up))
                  eq_refl eq_refl) as Hfit.
    vm_compute in Hfit. vm_compute. exact Hfit.
  - pose proof (proj1 (proj2 (fit_steps toy_balanced [10; 11; 12; 13; 14; 15]
                                [1; 1; 1; 1; 0; 0] false count_up))
                  eq_refl eq_refl) as Hfit.
    assert (subsample [10; 11; 12; 13; 14; 15] [1; 1; 1; 1; 0; 0]
              (self_subsample_size toy_balanced) count_up
            = Ok ([12; 11; 13; 10; 15; 14], [1; 1; 1; 1; 0; 0],
                  mkRandom (λ n, n) 5)) as Hsub
      by (vm_compute; reflexivity).
    rewrite Hsub in Hfit.
    specialize (Hfit (set_model toy_balanced 6) eq_refl
                  (same_settings_set_model toy_balanced 6)).
    vm_compute in Hfit. vm_compute. exact Hfit.
Defined.

(** ** The randomized search *)

Lemma random_choice_Ok {A} (seq : list A) (s : RandomState) :
  seq ≠ [] → ∃ a, random_choice seq s = Ok (a, advance s) ∧ a ∈ seq.
Proof.
  intros Hne. unfold random_choice, random_below.
  destruct (lookup_lt_is_Some_2 seq (draws s (cursor s) `mod` length seq)%nat)
    as [a Ha].
  { apply Nat.mod_upper_bound. by destruct seq. }
  rewrite Ha. exists a. split; [done|]. by eapply list_elem_of_lookup_2.
Qed.

Lemma collect_all_Ok {A} (f : nat → result A) (trials : list nat) :
  (∀ i, i ∈ trials → is_Ok (f i)) →
  ∃ l, collect (f <$> trials) = Ok l ∧
       Forall2 (λ i a, f i = Ok a) trials l.
Proof.
  induction trials as [|i trials IH]; intros Hf; csimpl.
  { exists []. by split. }
  destruct (Hf i) as [a Ha]; [left|].
  destruct IH as (l & Hl & Hall).
  { intros j Hj. apply Hf. by right. }
  rewrite Ha, Hl. simpl. exists (a :: l). split; [done|]. by constructor.
Qed.

Lemma collect_Raise {A} (f : nat → result A) (trials : list nat) i :
  i ∈ trials → ¬ is_Ok (f i) →
  ∃ j e, j ∈ trials ∧ f j = Raise e ∧ collect (f <$> trials) = Raise e.
Proof.
  induction trials as [|k trials IH]; intros Hi Hfail.
  { by apply not_elem_of_nil in Hi. }
  csimpl. destruct (f k) as [a|e] eqn:Hk.
  - apply elem_of_cons in Hi as [->|Hi].
    { destruct Hfail. rewrite Hk. by exists a. }
    destruct (IH Hi Hfail) as (j & e & Hj & Hfj & Hc).
    exists j, e. split_and!; [by right|done|]. simpl. by rewrite Hc.
  - exists k, e. split_and!; [left|done|done].
Qed.

Section py_max_facts.
Context {A : Type} (gt : A → A → bool).
Hypothesis gt_irrefl : ∀ a, gt a a = false.
Hypothesis gt_trans : ∀ a b c, gt a b = true → gt b c = true → gt a c = true.

Lemma foldl_max_spec (l : list A) (a : A) :
  let m := foldl (λ m item, if gt item m then item else m) a l in
  m ∈ a :: l ∧ ∀ x, x ∈ a :: l → gt x m = false.
Proof.
  revert a. induction l as [|b l IH] using rev_ind; intros a; simpl.
  { split; [left|]. intros x ->%list_elem_of_singleton. apply gt_irrefl. }
  rewrite foldl_app. simpl. destruct (IH a) as [Hin Hmax].
  set (m := foldl (λ m item, if gt item m then item else m) a l) in *.
  assert (∀ P : A → Prop, (∀ x, x ∈ a :: l ++ [b] → P x) ↔
            (∀ x, x ∈ a :: l → P x) ∧ P b) as Hall.
  { intros P. rewrite app_comm_cons. split.
    - intros HP. split; [intros; apply HP|apply HP];
        rewrite elem_of_app, list_elem_of_singleton; auto.
    - intros [HP1 HP2] x [?|Hx%list_elem_of_singleton]%elem_of_app;
        [auto|by subst]. }
  destruct (gt b m) eqn:Hb.
  - split.
    + rewrite app_comm_cons, elem_of_app, list_elem_of_singleton. auto.
    + apply Hall. split; [|apply gt_irrefl].
      intros x Hx. specialize (Hmax x Hx).
      destruct (gt x b) eqn:Hxb; [|done].
      by rewrite (gt_trans x b m) in Hmax.
  - split.
    + rewrite app_comm_cons, elem_of_app. auto.
    + apply Hall. by split.
Qed.

Lemma py_max_spec (l : list A) :
  l ≠ [] → ∃ m, py_max gt l = Ok m ∧ m ∈ l ∧ ∀ x, x ∈ l → gt x m = false.
Proof.
  destruct l as [|a l]; [done|]. intros _. simpl.
  eexists. split; [done|]. apply foldl_max_spec.
Qed.
End py_max_facts.

Lemma item_lt_irrefl a : item_lt a a = false.
Proof. destruct a; simpl; [apply Z.ltb_irrefl|done]. Qed.

Lemma item_lt_trans a b c :
  item_lt a b = true → item_lt b c = true → item_lt a c = true.
Proof.
  destruct a, b, c; simpl; try done.
  rewrite !Z.ltb_lt. lia.
Qed.

Lemma item_lt_eq a b : item_lt a b = true → a ≠ b.
Proof. intros Hlt ->. by rewrite item_lt_irrefl in Hlt. Qed.

Lemma dict_lt_irrefl a : dict_lt a a = false.
Proof. unfold dict_lt. rewrite decide_True by done. apply item_lt_irrefl. Qed.

Lemma dict_lt_trans a b c :
  dict_lt a b = true → dict_lt b c = true → dict_lt a c = true.
Proof.
  unfold dict_lt.
  destruct (decide (a key_d = b key_d)) as [Hab|Hab],
           (decide (b key_d = c key_d)) as [Hbc|Hbc]; intros H1 H2.
  - rewrite decide_True by congruence. by eapply item_lt_trans.
  - rewrite decide_False by congruence. by rewrite Hab.
  - rewrite decide_False by congruence. by rewrite <-Hbc.
  - pose proof (item_lt_trans _ _ _ H1 H2) as H3.
    rewrite decide_False; [done|]. by apply item_lt_eq.
Qed.

Lemma trial_gt_irrefl a : trial_gt a a = false.
Proof. unfold trial_gt. rewrite Z.eqb_refl. apply dict_lt_irrefl. Qed.

Lemma trial_gt_trans a b c :
  trial_gt a b = true → trial_gt b c = true → trial_gt a c = true.
Proof.
  unfold trial_gt.
  destruct (Z.eqb_spec a.1 b.1) as [Hab|Hab],
           (Z.eqb_spec b.1 c.1) as [Hbc|Hbc]; intros H1 H2.
  - rewrite (proj2 (Z.eqb_eq _ _)) by congruence. by eapply dict_lt_trans.
  - rewrite (proj2 (Z.eqb_neq _ _)) by congruence. by rewrite Hab.
  - rewrite (proj2 (Z.eqb_neq _ _)) by congruence. by rewrite <-Hbc.
  - apply Z.ltb_lt in H1, H2.
    rewrite (proj2 (Z.eqb_neq _ _)) by lia. apply Z.ltb_lt. lia.
Qed.

(** The order of the tuples [(score, params)], written out for
    dictionaries that hold the two keys. *)
Lemma trial_gt_false_lex score' params' score params r' d' r d :
  params' key_r = Some r' → params' key_d = Some d' →
  params key_r = Some r → params key_d = Some d →
  trial_gt (score', params') (score, params) = false →
  score' < score ∨ score' = score ∧ (d' < d ∨ d' = d ∧ r' ≤ r).
Proof.
  intros Hr' Hd' Hr Hd. unfold trial_gt, dict_lt. simpl.
  rewrite Hr', Hd', Hr, Hd. simpl.
  destruct (Z.eqb_spec score' score) as [->|Hne].
  - destruct (decide (Some d = Some d')) as [[= ->]|Hdd].
    + intros ?%Z.ltb_ge. lia.
    + intros ?%Z.ltb_ge. right. split; [done|].
      assert (d ≠ d') by congruence. lia.
  - intros ?%Z.ltb_ge. lia.
Qed.

Section search_facts.
Context {G T X M F : Type} `{EqDecision T} `{!PyDict T} `{!PyOrd G}
        `{!Backend G T X M} `{!PyFloat F} `{!PyDict ParamKey}.
Implicit Types (self : EdenEstimator F M) (graphs : list G) (targets : list T).

Lemma param_distr_r v : v ∈ param_distr key_r → 1 ≤ v < 5.
Proof.
  intros Hv. change (v ∈ [1; 2; 3; 4]) in Hv. label_cases Hv; lia.
Qed.

Lemma param_distr_d v : v ∈ param_distr key_d → 0 ≤ v < 6.
Proof.
  intros Hv. change (v ∈ [0; 1; 2; 3; 4; 5]) in Hv. label_cases Hv; lia.
Qed.

Lemma literal_keys :
  dict_keys [key_r; key_d] = [key_r; key_d] ∨
  dict_keys [key_r; key_d] = [key_d; key_r].
Proof.
  pose proof (dict_keys_perm [key_r; key_d]) as Hp.
  change (remove_dups [key_r; key_d]) with [key_r; key_d] in Hp.
  symmetry in Hp. by apply Permutation_length_2_inv in Hp.
Qed.

Lemma _sample_params_Ok s :
  ∃ params s', _sample_params param_distr s = Ok (params, s') ∧ in_grid params.
Proof.
  unfold _sample_params.
  destruct (random_choice_Ok (param_distr key_r) s) as (r1 & Hr1 & Hin_r1);
    [done|].
  destruct (random_choice_Ok (param_distr key_d) (advance s))
    as (d1 & Hd1 & Hin_d1); [done|].
  destruct (random_choice_Ok (param_distr key_d) s) as (d2 & Hd2 & Hin_d2);
    [done|].
  destruct (random_choice_Ok (param_distr key_r) (advance s))
    as (r2 & Hr2 & Hin_r2); [done|].
  destruct literal_keys as [-> | ->]; cbn [foldl bind].
  - rewrite Hr1. cbn [bind]. rewrite Hd1. cbn [bind].
    eexists _, _. split; [done|]. exists r1, d1.
    pose proof (param_distr_r _ Hin_r1). pose proof (param_distr_d _ Hin_d1).
    split_and!; (done || lia).
  - rewrite Hd2. cbn [bind]. rewrite Hr2. cbn [bind].
    eexists _, _. split; [done|]. exists r2, d2.
    pose proof (param_distr_r _ Hin_r2). pose proof (param_distr_d _ Hin_d2).
    split_and!; (done || lia).
Qed.

(** A trial scores the hyperparameters that it has drawn. *)
Lemma _eval_params_cv graphs targets s params s' r d :
  _sample_params param_distr s = Ok (params, s') →
  params key_r = Some r → params key_d = Some d →
  _eval_params (F:=F) graphs targets param_distr s
  = (score ←! cv_mean graphs targets r d; Ok (score, params)).
Proof.
  intros Hs Hr Hd. unfold _eval_params. rewrite Hs. cbn [bind].
  unfold cross_val_score, EdenEstimator_kwargs, transform, cv_mean.
  rewrite Hr, Hd. simpl.
  destruct (vectorize graphs r d true 1) as [x|e]; [|done]. simpl.
  by destruct (sk_cross_val_score (SGDClassifier 1) x targets 5 roc_auc 1).
Qed.

(** C4.  When the optional subsampling has returned, every trial of
    [model_selection_rand] draws [r] in [1, 5) and [d] in [0, 6), and
    its score is the mean of the five-fold cross-validation scores of a
    new estimator with that [r] and [d], or it raises the exception of
    the vectorizer or of the cross-validation.  With at least one
    trial, when every trial returns, [model_selection_rand] returns a
    newly constructed estimator, with a classifier that was never
    fitted, that carries the [r] and [d] of a trial of greatest score;
    among the trials of that score this is one of greatest [d], and
    among those one of greatest [r], which is the order of Python 2 on
    the tuples [(score, params)].  When a trial raises,
    [model_selection_rand] raises the exception of a trial. *)
Theorem model_selection_rand_in_grid self graphs targets n_iter
    subsample_size worker_random s graphs' targets' s1 :
  0 < n_iter →
  maybe_subsample graphs targets subsample_size s = Ok (graphs', targets', s1) →
  (∀ i, ∃ params s' r d,
     _sample_params param_distr (worker_random i) = Ok (params, s') ∧
     params key_r = Some r ∧ params key_d = Some d ∧
     1 ≤ r < 5 ∧ 0 ≤ d < 6 ∧
     _eval_params (F:=F) graphs' targets' param_distr (worker_random i)
     = (score ←! cv_mean graphs' targets' r d; Ok (score, params))) ∧
  ((∀ i, (i < Z.to_nat n_iter)%nat →
      is_Ok (_eval_params (F:=F) graphs' targets' param_distr
               (worker_random i))) →
   ∃ i score params r d,
     (i < Z.to_nat n_iter)%nat ∧
     _eval_params (F:=F) graphs' targets' param_distr (worker_random i)
     = Ok (score, params) ∧
     params key_r = Some r ∧ params key_d = Some d ∧
     1 ≤ r < 5 ∧ 0 ≤ d < 6 ∧
     cv_mean graphs' targets' r d = Ok score ∧
     (∀ j score' params' r' d',
        (j < Z.to_nat n_iter)%nat →
        _eval_params (F:=F) graphs' targets' param_distr (worker_random j)
        = Ok (score', params') →
        params' key_r = Some r' → params' key_d = Some d' →
        score' < score ∨ score' = score ∧ (d' < d ∨ d' = d ∧ r' ≤ r)) ∧
     model_selection_rand self graphs targets n_iter subsample_size
       worker_random s
     = Ok (EdenEstimator_init r d (-1) true false 200 (Int 2), s1) ∧
     self_model (EdenEstimator_init (F:=F) r d (-1) true false 200 (Int 2))
     = SGDClassifier (-1)) ∧
  (∀ i, (i < Z.to_nat n_iter)%nat →
     ¬ is_Ok (_eval_params (F:=F) graphs' targets' param_distr
                (worker_random i)) →
     ∃ j e,
       (j < Z.to_nat n_iter)%nat ∧
       _eval_params (F:=F) graphs' targets' param_distr (worker_random j)
       = Raise e ∧
       model_selection_rand self graphs targets n_iter subsample_size
         worker_random s
       = Raise e).
Proof.
  intros Hn Hpre.
  set (f := λ i, _eval_params (F:=F) graphs' targets' param_distr
                   (worker_random i)).
  assert (∀ i, ∃ params s' r d,
     _sample_params param_distr (worker_random i) = Ok (params, s') ∧
     params key_r = Some r ∧ params key_d = Some d ∧
     1 ≤ r < 5 ∧ 0 ≤ d < 6 ∧
     f i = (score ←! cv_mean graphs' targets' r d; Ok (score, params)))
    as Htrial.
  { intros i.
    destruct (_sample_params_Ok (worker_random i))
      as (params & s' & Hs & r & d & Hr & Hd & Hrb & Hdb).
    exists params, s', r, d. split_and!; try (done || lia).
    exact (_eval_params_cv graphs' targets' _ _ _ _ _ Hs Hr Hd). }
  split_and!; [done|..].
  - intros Hall. unfold model_selection_rand. rewrite Hpre. cbn [bind].
    fold f.
    destruct (collect_all_Ok f (seq 0 (Z.to_nat n_iter)))
      as (scores & Hscores & Hfor).
    { intros i [_ Hi]%elem_of_seq. apply Hall. lia. }
    rewrite Hscores. cbn [bind].
    pose proof (Forall2_length _ _ _ Hfor) as Hlen. rewrite length_seq in Hlen.
    destruct (py_max_spec trial_gt trial_gt_irrefl trial_gt_trans scores)
      as (best & Hbest & Hin & Hmax).
    { intros ->. simpl in Hlen. lia. }
    rewrite Hbest. cbn [bind].
    apply list_elem_of_lookup in Hin as [k Hk].
    destruct (Forall2_lookup_r _ _ _ _ _ Hfor Hk) as (i & Hi & Hfi).
    apply lookup_seq in Hi as [-> Hi]. simpl in Hfi.
    destruct best as [score params].
    destruct (Htrial k) as (params_k & s' & r & d & _ & Hr & Hd & Hrb & Hdb & Hk').
    rewrite Hfi in Hk'.
    destruct (cv_mean graphs' targets' r d) as [score_k|e] eqn:Hcv; [|done].
    simpl in Hk'. injection Hk' as -> ->.
    exists k, score_k, params_k, r, d. split_and!; try (done || lia).
    + intros j score' params' r' d' Hj Hfj Hr' Hd'.
      destruct (Forall2_lookup_l _ _ _ j j Hfor) as (trial & Hjl & Hfj').
      { by apply lookup_seq_lt. }
      fold (f j) in Hfj. rewrite Hfj in Hfj'. simplify_eq.
      apply (trial_gt_false_lex _ params' _ params_k); try done.
      apply Hmax. by eapply list_elem_of_lookup_2.
    + simpl. unfold EdenEstimator_kwargs. by rewrite Hr, Hd.
  - intros i Hi Hfail. unfold model_selection_rand. rewrite Hpre. cbn [bind].
    fold f.
    destruct (collect_Raise f (seq 0 (Z.to_nat n_iter)) i)
      as (j & e & Hj & Hfj & Hc); [|done|].
    { apply elem_of_seq. lia. }
    apply elem_of_seq in Hj. exists j, e. split_and!; [lia|done|].
    by rewrite Hc.
Qed.
End search_facts.

(** Five trials on four graphs with the toy backend, whose scores grow
    with [r] and [d]. *)
Lemma model_selection_rand_in_grid_witness :
  (∀ i, ∃ params s' r d,
     _sample_params param_distr (mkRandom (λ n, (7 * i + n)%nat) 0)
     = Ok (params, s') ∧
     params key_r = Some r ∧ params key_d = Some d ∧
     1 ≤ r < 5 ∧ 0 ≤ d < 6 ∧
     _eval_params (M:=Z) (F:=Z * Z) [10; 11; 12; 13] [1; 1; 0; 0] param_distr
       (mkRandom (λ n, (7 * i + n)%nat) 0)
     = (score ←! cv_mean (M:=Z) [10; 11; 12; 13] [1; 1; 0; 0] r d;
        Ok (score, params))) ∧
  ((∀ i, (i < Z.to_nat 5)%nat →
      is_Ok (_eval_params (M:=Z) (F:=Z * Z) [10; 11; 12; 13] [1; 1; 0; 0] param_distr
               (mkRandom (λ n, (7 * i + n)%nat) 0))) →
   ∃ i score params r d,
     (i < Z.to_nat 5)%nat ∧
     _eval_params (M:=Z) (F:=Z * Z) [10; 11; 12; 13] [1; 1; 0; 0] param_distr
       (mkRandom (λ n, (7 * i + n)%nat) 0)
     = Ok (score, params) ∧
     params key_r = Some r ∧ params key_d = Some d ∧
     1 ≤ r < 5 ∧ 0 ≤ d < 6 ∧
     cv_mean (M:=Z) [10; 11; 12; 13] [1; 1; 0; 0] r d = Ok score ∧
     (∀ j score' params' r' d',
        (j < Z.to_nat 5)%nat →
        _eval_params (M:=Z) (F:=Z * Z) [10; 11; 12; 13] [1; 1; 0; 0] param_distr
          (mkRandom (λ n, (7 * j + n)%nat) 0)
        = Ok (score', params') →
        params' key_r = Some r' → params' key_d = Some d' →
        score' < score ∨ score' = score ∧ (d' < d ∨ d' = d ∧ r' ≤ r)) ∧
     model_selection_rand toy_estimator [10; 11; 12; 13] [1; 1; 0; 0] 5 None
       (λ i, mkRandom (λ n, (7 * i + n)%nat) 0) count_up
     = Ok (EdenEstimator_init r d (-1) true false 200 (Int 2), count_up) ∧
     self_model (EdenEstimator_init (G:=Z) (T:=Z) (M:=Z) (F:=Z * Z) r d (-1)
                   true false 200 (Int 2))
     = SGDClassifier (-1)) ∧
  (∀ i, (i < Z.to_nat 5)%nat →
     ¬ is_Ok (_eval_params (M:=Z) (F:=Z * Z) [10; 11; 12; 13] [1; 1; 0; 0]
                param_distr (mkRandom (λ n, (7 * i + n)%nat) 0)) →
     ∃ j e,
       (j < Z.to_nat 5)%nat ∧
       _eval_params (M:=Z) (F:=Z * Z) [10; 11; 12; 13] [1; 1; 0; 0] param_distr
         (mkRandom (λ n, (7 * j + n)%nat) 0)
       = Raise e ∧
       model_selection_rand toy_estimator [10; 11; 12; 13] [1; 1; 0; 0] 5 None
         (λ i, mkRandom (λ n, (7 * i + n)%nat) 0) count_up
       = Raise e).
Proof.
  apply (model_selection_rand_in_grid (G:=Z) (T:=Z) toy_estimator
           [10; 11; 12; 13] [1; 1; 0; 0] 5 None
           (λ i, mkRandom (λ n, (7 * i + n)%nat) 0) count_up).
  - lia.
  - reflexivity.
Defined.

(** The search of the witness in numbers: the second trial draws
    [r = 4] and [d = 2], which has the greatest score. *)
Example model_selection_rand_toy :
  outcome (model_selection_rand toy_estimator [10; 11; 12; 13] [1; 1; 0; 0] 5
             None (λ i, mkRandom (λ n, (7 * i + n)%nat) 0) count_up)
  = Ok (EdenEstimator_init 4 2 (-1) true false 200 (Int 2)).
Proof. vm_compute. reflexivity. Qed.

(** ** More on the shuffler *)

Lemma zip_nil_inv {A B} (i1 : list A) (i2 : list B) :
  zip i1 i2 = [] ↔ i1 = [] ∨ i2 = [].
Proof.
  destruct i1, i2; simpl; split; try done; auto.
  by intros [?|?].
Qed.

Lemma fst_zip_take {A B} (i1 : list A) (i2 : list B) :
  (zip i1 i2).*1 = take (length i2) i1.
Proof.
  revert i2. induction i1 as [|a i1 IH]; intros [|b i2]; csimpl; try done.
  by rewrite IH.
Qed.

Lemma snd_zip_take {A B} (i1 : list A) (i2 : list B) :
  (zip i1 i2).*2 = take (length i1) i2.
Proof.
  revert i2. induction i1 as [|a i1 IH]; intros [|b i2]; csimpl; try done.
  by rewrite IH.
Qed.

Lemma zip_take_both {A B} (i1 : list A) (i2 : list B) :
  zip (take (length i2) i1) (take (length i1) i2) = zip i1 i2.
Proof.
  revert i2. induction i1 as [|a i1 IH]; intros [|b i2]; csimpl; try done.
  by rewrite IH.
Qed.

(** X1.  On two sequences that are not empty [paired_shuffle] returns:
    the pairs of the outputs are the pairs of the inputs in another
    order, the first output is a permutation of the first input cut to
    the length of the second, and likewise for the second output. *)
Theorem paired_shuffle_permutes {A B} (i1 : list A) (i2 : list B)
    (s : RandomState) :
  i1 ≠ [] → i2 ≠ [] →
  ∃ o1 o2 s',
    paired_shuffle i1 i2 s = Ok (o1, o2, s') ∧
    zip o1 o2 ≡ₚ zip i1 i2 ∧
    o1 ≡ₚ take (length i2) i1 ∧
    o2 ≡ₚ take (length i1) i2.
Proof.
  intros H1 H2.
  destruct (paired_shuffle_Ok i1 i2 s) as (o1 & o2 & s' & Heq & Hp & Hl).
  { rewrite zip_nil_inv. by intros [?|?]. }
  exists o1, o2, s'. split_and!; [done..| |].
  - rewrite <-fst_zip_take, <-Hp. by rewrite fst_zip by lia.
  - rewrite <-snd_zip_take, <-Hp. by rewrite snd_zip by lia.
Qed.

Lemma paired_shuffle_permutes_witness :
  ∃ o1 o2 s',
    paired_shuffle [1; 2; 3; 4] [10; 20; 30] count_up = Ok (o1, o2, s') ∧
    zip o1 o2 ≡ₚ zip [1; 2; 3; 4] [10; 20; 30] ∧
    o1 ≡ₚ take (length [10; 20; 30]) [1; 2; 3; 4] ∧
    o2 ≡ₚ take (length [1; 2; 3; 4]) [10; 20; 30].
Proof. apply paired_shuffle_permutes; discriminate. Defined.

Lemma paired_shuffle_raise_inv {A B} (i1 : list A) (i2 : list B) s e :
  paired_shuffle i1 i2 s = Raise e → e = ValueError ∧ zip i1 i2 = [].
Proof.
  intros He. destruct (decide (zip i1 i2 = [])) as [Hnil|Hne].
  - rewrite paired_shuffle_raises in He by done. by simplify_eq.
  - destruct (paired_shuffle_Ok i1 i2 s Hne) as (? & ? & ? & Heq & _).
    by rewrite Heq in He.
Qed.

(** X2.  [paired_shuffle] fails exactly when one of the sequences is
    empty, its only exception is [ValueError], and what lies beyond the
    length of the shorter sequence has no part in the result. *)
Theorem paired_shuffle_failure {A B} (i1 : list A) (i2 : list B)
    (s : RandomState) :
  (paired_shuffle i1 i2 s = Raise ValueError ↔ i1 = [] ∨ i2 = []) ∧
  (∀ e, paired_shuffle i1 i2 s = Raise e → e = ValueError) ∧
  paired_shuffle i1 i2 s
  = paired_shuffle (take (length i2) i1) (take (length i1) i2) s.
Proof.
  split_and!.
  - split.
    + intros [_ Hnil]%paired_shuffle_raise_inv. by apply zip_nil_inv.
    + intros Hnil%zip_nil_inv. by apply paired_shuffle_raises.
  - intros e He. by apply paired_shuffle_raise_inv in He as [-> _].
  - unfold paired_shuffle. by rewrite zip_take_both.
Qed.

(** ** More on the subsample *)

Section subsample_more.
Context {G T X M F : Type} `{EqDecision T} `{!PyDict T} `{!PyOrd G}
        `{!Backend G T X M} `{!PyFloat F}.
Implicit Types (graphs : list G) (targets : list T) (tg : list (T * G)).

Lemma subsample_unfold graphs targets subsample_size s :
  ∃ gs ts,
    subsample graphs targets subsample_size s = paired_shuffle gs ts s ∧
    length gs = length ts ∧
    zip gs ts
    = dict_keys (zip targets graphs).*1 ≫=
        class_sample (zip targets graphs)
          (subsample_size `div` Z.of_nat (length (remove_dups targets))).
Proof.
  unfold subsample.
  destruct (subsample_fold (zip targets graphs)
              (subsample_size `div` Z.of_nat (length (remove_dups targets)))
              (dict_keys (zip targets graphs).*1) [] [])
    as (gs & ts & Hfold & Hl & Hzip); [done|].
  rewrite Hfold. by exists gs, ts.
Qed.

Lemma bind_all_nil {A B} (f : A → list B) (ks : list A) :
  (∀ y, y ∈ ks → f y = []) → ks ≫= f = [].
Proof.
  induction ks as [|k ks IH]; intros Hf; [done|].
  rewrite bind_cons, Hf, IH; [done| |left]. intros y Hy. apply Hf. by right.
Qed.

Lemma dict_keys_nil : dict_keys (@nil T) = [].
Proof. apply Permutation_nil_r. by rewrite dict_keys_perm. Qed.

(** X3.  When the graphs or the labels are empty, or when fewer items
    than there are classes are asked for, no item survives and
    [subsample] raises the [ValueError] of the shuffler. *)
Theorem subsample_nothing_left graphs targets subsample_size s :
  graphs = [] ∨ targets = [] ∨
    0 ≤ subsample_size < Z.of_nat (length (remove_dups targets)) →
  subsample graphs targets subsample_size s = Raise ValueError.
Proof.
  intros Hcase.
  destruct (subsample_unfold graphs targets subsample_size s)
    as (gs & ts & -> & _ & Hzip).
  apply paired_shuffle_raises. rewrite Hzip.
  destruct Hcase as [-> | [-> | Hsize]].
  - assert (zip targets (@nil G) = []) as -> by (by destruct targets).
    simpl. by rewrite dict_keys_nil.
  - simpl. by rewrite dict_keys_nil.
  - apply bind_all_nil. intros y _. unfold class_sample.
    rewrite Z.div_small by done. by unfold slice_to.
Qed.

Lemma bind_groups_cons_notin tg (x : T * G) ks :
  x.1 ∉ ks →
  ks ≫= groupby_first (x :: tg) = ks ≫= groupby_first tg.
Proof.
  induction ks as [|k ks IH]; intros Hx; [done|].
  rewrite !bind_cons, IH by (intros ?; apply Hx; by right).
  unfold groupby_first at 1. rewrite filter_cons_False; [done|].
  intros Heq. apply Hx. rewrite Heq. left.
Qed.

Lemma bind_groups_cons_in tg (x : T * G) ks :
  NoDup ks → x.1 ∈ ks →
  ks ≫= groupby_first (x :: tg) ≡ₚ x :: (ks ≫= groupby_first tg).
Proof.
  induction 1 as [|k ks Hk Hnd IH]; intros Hx.
  { by apply not_elem_of_nil in Hx. }
  rewrite !bind_cons. destruct (decide (x.1 = k)) as [<-|Hne].
  - rewrite bind_groups_cons_notin by done.
    unfold groupby_first at 1. by rewrite filter_cons_True by done.
  - apply elem_of_cons in Hx as [?|Hx]; [done|].
    rewrite IH by done. unfold groupby_first at 1.
    rewrite filter_cons_False by done.
    symmetry. apply Permutation_middle.
Qed.

Lemma bind_groups_perm tg ks :
  NoDup ks → (∀ x, x ∈ tg → x.1 ∈ ks) → ks ≫= groupby_first tg ≡ₚ tg.
Proof.
  intros Hnd. induction tg as [|x tg IH]; intros Hks.
  { by rewrite bind_all_nil. }
  rewrite bind_groups_cons_in; [|done|apply Hks; left].
  rewrite IH; [done|]. intros y Hy. apply Hks. by right.
Qed.

Lemma class_sample_swap tg size y :
  class_sample tg size y = prod_swap <$> slice_to size (groupby_first tg y).
Proof.
  unfold class_sample. apply list_fmap_ext.
  intros i [t g] Hi. apply list_elem_of_lookup_2, slice_to_subseteq in Hi.
  apply groupby_first_label in Hi as [Ht _]. simpl in *. by subst.
Qed.

Lemma class_samples_submseteq tg size ks :
  NoDup ks → (∀ x, x ∈ tg → x.1 ∈ ks) →
  ks ≫= class_sample tg size ⊆+ prod_swap <$> tg.
Proof.
  intros Hnd Hks. rewrite <-(bind_groups_perm tg ks) at 2 by done.
  clear Hnd Hks. induction ks as [|k ks IH]; [done|].
  rewrite !bind_cons, fmap_app. apply submseteq_app; [|done].
  rewrite class_sample_swap. apply fmap_submseteq, sublist_submseteq.
  rewrite slice_to_take. apply sublist_take.
Qed.

(** X4.  [subsample] raises nothing but [ValueError]; when it returns,
    the pairs of its output are pairs of the input, and none is taken
    more often than the input has it. *)
Theorem subsample_draws_from_input graphs targets subsample_size s :
  match subsample graphs targets subsample_size s with
  | Raise e => e = ValueError
  | Ok (out_g, out_t, _) =>
      length out_g = length out_t ∧
      zip out_g out_t ⊆+ prod_swap <$> zip targets graphs
  end.
Proof.
  destruct (subsample_unfold graphs targets subsample_size s)
    as (gs & ts & -> & _ & Hzip).
  destruct (paired_shuffle gs ts s) as [[[out_g out_t] s']|e] eqn:Hsh.
  - apply paired_shuffle_inv in Hsh as (_ & Hp & Hl). split; [done|].
    rewrite Hp, Hzip. apply class_samples_submseteq.
    + apply NoDup_dict_keys.
    + intros [t g] Hx. apply elem_of_dict_keys_2.
      apply list_elem_of_fmap. by exists (t, g).
  - by apply paired_shuffle_raise_inv in Hsh as [-> _].
Qed.
End subsample_more.

Lemma subsample_nothing_left_witness :
  subsample [10; 11; 12; 13] [1; 1; 0; 0] 1 count_up = Raise ValueError.
Proof.
  apply (subsample_nothing_left (G:=Z) (T:=Z)).
  right. right. vm_compute. split; [discriminate|reflexivity].
Defined.

Section subsample_counts.
Context {G T X M F : Type} `{EqDecision T} `{!PyDict T} `{!PyOrd G}
        `{!Backend G T X M} `{!PyFloat F}.
Implicit Types (graphs : list G) (targets : list T) (tg : list (T * G)).

Lemma Counter_snd {A} (l : list (A * T)) y :
  Counter l.*2 y = Z.of_nat (length (filter (λ p, p.2 = y) l)).
Proof.
  unfold Counter. f_equal.
  induction l as [|[a t] l IH]; csimpl; [done|].
  destruct (decide (t = y)) as [->|Hne].
  - rewrite !filter_cons_True by done. simpl. by rewrite IH.
  - by rewrite !filter_cons_False by done.
Qed.

Lemma class_samples_nonempty tg size :
  tg ≠ [] → 1 ≤ size → dict_keys tg.*1 ≫= class_sample tg size ≠ [].
Proof.
  intros Hne Hsize Hnil. destruct tg as [|[t g] tg]; [done|].
  assert (t ∈ ((t, g) :: tg).*1) as Hfst by (simpl; left).
  pose proof (groupby_first_ne _ t Hfst) as Hgrp.
  assert (∃ p, p ∈ class_sample ((t, g) :: tg) size t) as [p Hp].
  { unfold class_sample.
    destruct (groupby_first ((t, g) :: tg) t) as [|x l]; [done|].
    unfold slice_to. destruct (Z.ltb_spec size 0); [lia|].
    destruct (Z.to_nat size) as [|q] eqn:Hq; [lia|].
    eexists. simpl. left. }
  assert (p ∈ dict_keys ((t, g) :: tg).*1 ≫= class_sample ((t, g) :: tg) size)
    as Hin.
  { apply list_elem_of_bind. exists t. split; [done|].
    by apply elem_of_dict_keys_2. }
  rewrite Hnil in Hin. by apply not_elem_of_nil in Hin.
Qed.

(** X5.  When graphs and labels have the same length and at least one
    item for each class is asked for, the output of [subsample] holds of
    each class [subsample_size / num_classes] items, or all its items
    when it has fewer: the classes are capped alike, whatever their
    share of the input. *)
Theorem subsample_class_counts graphs targets subsample_size s :
  length graphs = length targets →
  targets ≠ [] →
  Z.of_nat (length (remove_dups targets)) ≤ subsample_size →
  ∃ out_g out_t s',
    subsample graphs targets subsample_size s = Ok (out_g, out_t, s') ∧
    ∀ y, Counter out_t y
         = Z.min (subsample_size `div` Z.of_nat (length (remove_dups targets)))
                 (Counter targets y).
Proof.
  intros Hlen Hne Hsize.
  destruct (subsample_unfold graphs targets subsample_size s)
    as (gs & ts & -> & _ & Hzip).
  set (tg := zip targets graphs) in *.
  set (n := Z.of_nat (length (remove_dups targets))) in *.
  set (q := subsample_size `div` n) in *.
  assert (0 < n) as Hn.
  { unfold n. destruct targets as [|t targets]; [done|].
    assert (t ∈ remove_dups (t :: targets)) as Hin
      by (apply elem_of_remove_dups; left).
    destruct (remove_dups (t :: targets)); [by apply not_elem_of_nil in Hin|].
    simpl. lia. }
  assert (1 ≤ q) as Hq by (apply Z.div_le_lower_bound; lia).
  assert (tg.*1 = targets) as Hfst by (apply fst_zip; lia).
  destruct (paired_shuffle_Ok gs ts s) as (out_g & out_t & s' & -> & Hp & Hl).
  { rewrite Hzip. apply class_samples_nonempty; [|done].
    unfold tg. destruct targets, graphs; done. }
  exists out_g, out_t, s'. split; [done|]. intros y.
  rewrite Hzip in Hp.
  destruct (zip_Permutation_snd out_g out_t _ Hl Hp) as [Ht _].
  rewrite (Counter_perm _ _ _ Ht), Counter_snd, filter_class_samples.
  - unfold class_sample. rewrite length_fmap, length_slice_to.
    rewrite slice_len_nonneg by lia.
    by rewrite length_groupby_first, Hfst.
  - apply NoDup_dict_keys.
  - intros k. apply elem_of_dict_keys_2.
Qed.
End subsample_counts.

Lemma subsample_class_counts_witness :
  ∃ out_g out_t s',
    subsample [10; 11; 12; 13; 14] [1; 1; 0; 0; 1] 2 count_up
    = Ok (out_g, out_t, s') ∧
    ∀ y, Counter out_t y
         = Z.min (2 `div` Z.of_nat (length (remove_dups [1; 1; 0; 0; 1])))
                 (Counter [1; 1; 0; 0; 1] y).
Proof.
  apply (subsample_class_counts (G:=Z) (T:=Z)).
  - reflexivity.
  - discriminate.
  - vm_compute. discriminate.
Defined.

(** ** More on the balance *)

Section balance_more.
Context {G T X M F : Type} `{EqDecision T} `{!PyDict T} `{!PyOrd G}
        `{!Backend G T X M} `{!PyFloat F}.
Implicit Types (graphs : list G) (targets : list T).

Lemma balance_raise_inv graphs targets
    (estimator : option (EdenEstimator F M)) ratio s e :
  balance graphs targets estimator ratio s = Raise e →
  e = KeyError ∨
  ∃ est mj,
    estimator = Some est ∧ majority_class (class_scan targets) = Some mj ∧
    decision_function est (groupby_first (zip targets graphs) mj).*2 = Raise e.
Proof.
  intros He. pose proof He as He'. unfold balance in He'.
  destruct (getitem _ (majority_class (class_scan targets)))
    as [[mj maj_items]|e1] eqn:Hgmj; cycle 1.
  { simpl in He'. simplify_eq. clear He. left.
    destruct (majority_class (class_scan targets)) as [k|]; simpl in Hgmj;
      [|by simplify_eq].
    destruct (groupby_first (zip targets graphs) k); by simplify_eq. }
  destruct (getitem _ (minority_class (class_scan targets)))
    as [[mn min_items]|e2] eqn:Hgmn; cycle 1.
  { simpl in He'. simplify_eq. clear He. left.
    destruct (minority_class (class_scan targets)) as [k|]; simpl in Hgmn;
      [|by simplify_eq].
    destruct (groupby_first (zip targets graphs) k); by simplify_eq. }
  clear He'.
  apply getitem_inv in Hgmj as (Hmj & -> & Hnemj).
  apply getitem_inv in Hgmn as (Hmn & -> & Hnemn).
  destruct (balance_preds estimator
              (groupby_first (zip targets graphs) mj).*2 s)
    as [[preds s1]|e'] eqn:Hpreds.
  - destruct (balance_run graphs targets estimator ratio s mj mn preds s1)
      as (o1 & o2 & t & Heq & _); [done..|].
    by rewrite Heq in He.
  - right. unfold balance in He. rewrite Hmj, Hmn, !getitem_Ok in He by done.
    simpl in He. rewrite Hpreds in He. simpl in He. injection He as ->.
    destruct estimator as [est|]; [|done]. exists est, mj.
    split_and!; [done..|]. simpl in Hpreds.
    destruct (decision_function est _) as [preds|e0]; [done|].
    simpl in Hpreds. by injection Hpreds as ->.
Qed.

Lemma balance_raise_KeyError graphs targets
    (estimator : option (EdenEstimator F M)) ratio s e :
  per_sample estimator →
  balance graphs targets estimator ratio s = Raise e → e = KeyError.
Proof.
  intros Hper [->|(est & mj & -> & _ & Hdf)]%balance_raise_inv; [done|].
  destruct (Hper est (groupby_first (zip targets graphs) mj).*2 eq_refl)
    as (preds & Hok & _).
  by rewrite Hok in Hdf.
Qed.

Lemma balanced_two_labels graphs targets preds (ratio : Number F) mj mn p :
  p ∈ balanced graphs targets preds ratio mj mn → p.2 = mn ∨ p.2 = mj.
Proof.
  unfold balanced.
  intros [Hin|Hin]%elem_of_app;
    apply list_elem_of_fmap in Hin as (x & -> & _); auto.
Qed.

(** X6.  With no estimator, or with one that answers with one decision
    value for each graph, [balance] raises nothing but [KeyError].  When
    it returns, each pair of its output is a pair of the input, each
    input pair of the minority class is in the output, and the output
    bears no label but those of the majority and of the minority class:
    a third class is dropped. *)
Theorem balance_draws_from_input graphs targets
    (estimator : option (EdenEstimator F M)) ratio s :
  per_sample estimator →
  match balance graphs targets estimator ratio s with
  | Raise e => e = KeyError
  | Ok (out_g, out_t, _) =>
      length out_g = length out_t ∧
      (∀ g t, (g, t) ∈ zip out_g out_t → (t, g) ∈ zip targets graphs) ∧
      ∃ mj mn,
        majority_class (class_scan targets) = Some mj ∧
        minority_class (class_scan targets) = Some mn ∧
        (∀ g, (mn, g) ∈ zip targets graphs → (g, mn) ∈ zip out_g out_t) ∧
        (∀ t, t ∈ out_t → t = mn ∨ t = mj)
  end.
Proof.
  intros Hper.
  destruct (balance graphs targets estimator ratio s)
    as [[[out_g out_t] s']|e] eqn:Hb; [|by eapply balance_raise_KeyError].
  apply balance_inv in Hb as (mj & mn & preds & s1 & Hmj & Hmn & _ & Hp & Hl).
  split_and!; [done| |].
  - intros g t Hin. rewrite Hp in Hin. by eapply balanced_input_pairs.
  - exists mj, mn. split_and!; [done..| |].
    + intros g Hin. rewrite Hp. by apply balanced_minority.
    + intros t Ht.
      destruct (zip_Permutation_snd out_g out_t _ Hl Hp) as [Hout _].
      rewrite Hout in Ht. apply list_elem_of_fmap in Ht as (p & -> & Hin).
      by eapply balanced_two_labels.
Qed.

(** X7.  On graphs and labels of the same length, with no estimator or
    with one that answers with one decision value for each graph,
    [balance] returns exactly when some class has fewer than 10^6
    members: the search of the minority class starts from [1e6] and
    finds no class otherwise. *)
Theorem balance_returns_iff graphs targets
    (estimator : option (EdenEstimator F M)) ratio s :
  length graphs = length targets →
  per_sample estimator →
  is_Ok (balance graphs targets estimator ratio s) ↔
  ∃ k, k ∈ targets ∧ Counter targets k < 1000000.
Proof.
  intros Hlen Hper. split.
  - intros [out Hok].
    destruct (decide (Exists (λ k, Counter targets k < 1000000) targets))
      as [Hex|Hnex].
    { by apply Exists_exists in Hex. }
    apply not_Exists_Forall in Hnex; [|apply _].
    rewrite balance_large_classes in Hok; [done|].
    intros k Hk. rewrite Forall_forall in Hnex.
    specialize (Hnex k Hk). simpl in Hnex. lia.
  - intros Hsmall.
    destruct (balance_returns graphs targets estimator ratio s
                Hper Hlen Hsmall)
      as (mj & mn & preds & s1 & out_g & out_t & s' & _ & _ & _ & Heq & _).
    by exists (out_g, out_t, s').
Qed.

(** X8.  [balance] raises [KeyError] when the graphs or the labels are
    empty. *)
Theorem balance_empty graphs targets
    (estimator : option (EdenEstimator F M)) ratio s :
  graphs = [] ∨ targets = [] →
  balance graphs targets estimator ratio s = Raise KeyError.
Proof.
  intros Hcase.
  assert (zip targets graphs = []) as Hzip.
  { destruct Hcase as [-> | ->]; [by destruct targets|done]. }
  unfold balance. rewrite Hzip.
  by destruct (majority_class (class_scan targets)).
Qed.
End balance_more.

Lemma balance_draws_from_input_witness :
  match balance [10; -11; 12; -13; 14; 15] [1; 1; 1; 1; 0; 2]
          (Some (set_model toy_balanced 3)) (Float (3, 2)) count_up with
  | Raise e => e = KeyError
  | Ok (out_g, out_t, _) =>
      length out_g = length out_t ∧
      (∀ g t, (g, t) ∈ zip out_g out_t →
              (t, g) ∈ zip [1; 1; 1; 1; 0; 2] [10; -11; 12; -13; 14; 15]) ∧
      ∃ mj mn,
        majority_class (class_scan [1; 1; 1; 1; 0; 2]) = Some mj ∧
        minority_class (class_scan [1; 1; 1; 1; 0; 2]) = Some mn ∧
        (∀ g, (mn, g) ∈ zip [1; 1; 1; 1; 0; 2] [10; -11; 12; -13; 14; 15] →
              (g, mn) ∈ zip out_g out_t) ∧
        (∀ t, t ∈ out_t → t = mn ∨ t = mj)
  end.
Proof.
  apply (balance_draws_from_input (G:=Z) (T:=Z)). apply toy_per_sample.
Defined.

Lemma balance_returns_iff_witness :
  is_Ok (balance [10; 11; 12] [1; 0; 1] (Some toy_estimator) (Int 2)
           count_up) ↔
  ∃ k, k ∈ [1; 0; 1] ∧ Counter [1; 0; 1] k < 1000000.
Proof.
  apply (balance_returns_iff (G:=Z) (T:=Z)).
  - reflexivity.
  - apply toy_per_sample.
Defined.

Lemma balance_empty_witness :
  balance (@nil Z) [1; 0; 1] (None : option (EdenEstimator (Z * Z) Z))
    (Int 2) count_up
  = Raise KeyError.
Proof. apply (balance_empty (G:=Z) (T:=Z)). by left. Defined.

Section balance_ratios.
Context {G T X M F : Type} `{EqDecision T} `{!PyDict T} `{!PyOrd G}
        `{!Backend G T X M} `{!PyFloat F}.
Implicit Types (graphs : list G) (targets : list T).

(** X9.  When every class has the same number [n] of members, below
    10^6, the loop of [balance] takes one class as the majority and as
    the minority class: when [int(n * ratio)] is not negative, as for a
    ratio that is not negative, the output bears the label of that class
    alone and has [n + min(int(n * ratio), n)] items, and every other
    class is lost. *)
Theorem balance_equal_counts graphs targets
    (estimator : option (EdenEstimator F M)) ratio s n :
  length graphs = length targets →
  per_sample estimator →
  targets ≠ [] →
  0 ≤ int_mul n ratio →
  n < 1000000 →
  (∀ k, k ∈ targets → Counter targets k = n) →
  ∃ c out_g out_t s',
    c ∈ targets ∧
    balance graphs targets estimator ratio s = Ok (out_g, out_t, s') ∧
    (∀ t, t ∈ out_t → t = c) ∧
    length out_g = length out_t ∧
    Z.of_nat (length out_t) = n + Z.min (int_mul n ratio) n.
Proof.
  intros Hlen Hper Hne Hratio Hn Hcount.
  destruct (class_scan_majority targets Hne) as (c & Hmj & Hc & _).
  assert (∃ k, k ∈ targets ∧ Counter targets k < 1000000) as Hsmall.
  { exists c. split; [done|]. by rewrite Hcount. }
  assert (minority_class (class_scan targets) = Some c) as Hmn.
  { rewrite <-Hmj. symmetry. apply class_scan_tie.
    - intros k Hk. by rewrite Hcount.
    - intros k1 k2 Hk1 Hk2. by rewrite !Hcount. }
  destruct (balance_one_class graphs targets estimator ratio s c
              Hlen Hper Hsmall Hmj Hmn)
    as (out_g & out_t & s' & Heq & Hl & Ht & _).
  exists c, out_g, out_t, s'. split_and!; [done..| |done|].
  - intros t. rewrite Ht. apply elem_of_replicate_inv.
  - rewrite Ht, length_replicate, Hcount by done.
    pose proof (Counter_pos targets c Hc) as Hpos. rewrite Hcount in Hpos by done.
    pose proof (slice_len_nonneg (int_mul n ratio) (Z.to_nat n)). lia.
Qed.

(** X10.  A negative ratio can make [desired_size], which is
    [int(minority_count * ratio)], negative, and the slice then drops
    that many majority graphs from the end of the sorted list: when the
    class counts differ, the output holds
    [max(0, majority_count + int(minority_count * ratio))] majority
    graphs and the whole minority class. *)
Theorem balance_negative_ratio graphs targets
    (estimator : option (EdenEstimator F M)) ratio s :
  length graphs = length targets →
  per_sample estimator →
  int_mul (min_count (class_scan targets)) ratio < 0 →
  (∃ k, k ∈ targets ∧ Counter targets k < 1000000) →
  (∃ k1 k2, k1 ∈ targets ∧ k2 ∈ targets ∧
            Counter targets k1 ≠ Counter targets k2) →
  ∃ mj mn out_g out_t s',
    balance graphs targets estimator ratio s = Ok (out_g, out_t, s') ∧
    mj ∈ targets ∧ mn ∈ targets ∧
    (∀ k, k ∈ targets →
       Counter targets mn ≤ Counter targets k ≤ Counter targets mj) ∧
    Counter out_t mj
    = Z.max 0 (Counter targets mj + int_mul (Counter targets mn) ratio) ∧
    Counter out_t mn = Counter targets mn.
Proof.
  intros Hlen Hper Hratio Hsmall (k1 & k2 & Hk1 & Hk2 & Hdiff).
  destruct (balance_targets graphs targets estimator ratio s Hlen Hsmall Hper)
    as (mj & mn & out_g & out_t & s' & Heq & _ & Hmn & Hinmj & Hinmn & Hbound
        & Hl & Ht & _).
  destruct (class_scan_minority targets Hsmall) as (mn' & Hmn' & _ & Hmc & _).
  rewrite Hmn in Hmn'. injection Hmn' as <-. rewrite Hmc in Hratio.
  assert (mn ≠ mj) as Hne.
  { intros ->. pose proof (Hbound k1 Hk1). pose proof (Hbound k2 Hk2). lia. }
  pose proof (Counter_pos targets mn Hinmn) as Hmn0.
  pose proof (Counter_pos targets mj Hinmj) as Hmj0.
  exists mj, mn, out_g, out_t, s'. split_and!; [done..| |].
  - rewrite (Counter_perm _ _ _ Ht), Counter_app.
    rewrite Counter_replicate_ne, Counter_replicate_eq by done.
    unfold slice_len.
    destruct (Z.ltb_spec (int_mul (Counter targets mn) ratio) 0); lia.
  - rewrite (Counter_perm _ _ _ Ht), Counter_app.
    rewrite Counter_replicate_eq, Counter_replicate_ne by (by intros ->). lia.
Qed.
End balance_ratios.

(** Three graphs in each of two classes and the ratio 0.5:
    [int(3 * 0.5)] is 1, and four items come out. *)
Lemma balance_equal_counts_witness :
  ∃ c out_g out_t s',
    c ∈ [1; 1; 1; 0; 0; 0] ∧
    balance [10; 11; 12; 13; 14; 15] [1; 1; 1; 0; 0; 0]
      (None : option (EdenEstimator (Z * Z) Z)) (Float (1, 2)) count_up
    = Ok (out_g, out_t, s') ∧
    (∀ t, t ∈ out_t → t = c) ∧
    length out_g = length out_t ∧
    Z.of_nat (length out_t) = 3 + Z.min (int_mul 3 (Float (1, 2))) 3.
Proof.
  apply (balance_equal_counts (G:=Z) (T:=Z)).
  - reflexivity.
  - apply per_sample_None.
  - discriminate.
  - vm_compute. discriminate.
  - lia.
  - intros k Hk. label_cases Hk; by subst.
Defined.

Example balance_equal_counts_toy :
  outcome (balance [10; 11; 12; 13; 14; 15] [1; 1; 1; 0; 0; 0]
             (None : option (EdenEstimator (Z * Z) Z)) (Float (1, 2))
             count_up)
  = Ok ([13; 15; 14; 13], [0; 0; 0; 0]).
Proof. vm_compute. reflexivity. Qed.

(** Five graphs of the majority class, three of the minority class and
    the ratio -0.5: [int(3 * -0.5)] is -1, the slice [[:-1]] drops one
    majority graph and keeps four. *)
Lemma balance_negative_ratio_witness :
  ∃ mj mn out_g out_t s',
    balance [10; 11; 12; 13; 14; 15; 16; 17] [1; 1; 1; 1; 1; 0; 0; 0]
      (None : option (EdenEstimator (Z * Z) Z)) (Float (-1, 2)) count_up
    = Ok (out_g, out_t, s') ∧
    mj ∈ [1; 1; 1; 1; 1; 0; 0; 0] ∧ mn ∈ [1; 1; 1; 1; 1; 0; 0; 0] ∧
    (∀ k, k ∈ [1; 1; 1; 1; 1; 0; 0; 0] →
       Counter [1; 1; 1; 1; 1; 0; 0; 0] mn ≤ Counter [1; 1; 1; 1; 1; 0; 0; 0] k
       ≤ Counter [1; 1; 1; 1; 1; 0; 0; 0] mj) ∧
    Counter out_t mj
    = Z.max 0 (Counter [1; 1; 1; 1; 1; 0; 0; 0] mj
               + int_mul (Counter [1; 1; 1; 1; 1; 0; 0; 0] mn) (Float (-1, 2))) ∧
    Counter out_t mn = Counter [1; 1; 1; 1; 1; 0; 0; 0] mn.
Proof.
  apply (balance_negative_ratio (G:=Z) (T:=Z)).
  - reflexivity.
  - apply per_sample_None.
  - vm_compute. reflexivity.
  - exists 0. split; [in_list|vm_compute; reflexivity].
  - exists 1, 0. split_and!; [in_list..|vm_compute; discriminate].
Defined.

Example balance_negative_ratio_toy :
  ∃ out_g out_t,
    outcome (balance [10; 11; 12; 13; 14; 15; 16; 17] [1; 1; 1; 1; 1; 0; 0; 0]
               (None : option (EdenEstimator (Z * Z) Z)) (Float (-1, 2))
               count_up)
    = Ok (out_g, out_t) ∧
    Counter out_t 1 = 4 ∧ Counter out_t 0 = 3.
Proof. vm_compute. by eexists _, _. Qed.

(** ** More on the estimator *)

Section fit_more.
Context {G T X M F : Type} `{EqDecision T} `{!PyDict T} `{!PyOrd G}
        `{!Backend G T X M} `{!PyFloat F} `{!PyDict ParamKey}.
Implicit Types (self : EdenEstimator F M) (graphs : list G) (targets : list T).

Lemma subsample_raise_inv graphs targets subsample_size s e :
  subsample graphs targets subsample_size s = Raise e → e = ValueError.
Proof.
  destruct (subsample_unfold graphs targets subsample_size s)
    as (gs & ts & -> & _). by intros [-> _]%paired_shuffle_raise_inv.
Qed.

Lemma subsample_no_pairs graphs targets subsample_size s :
  zip targets graphs = [] →
  subsample graphs targets subsample_size s = Raise ValueError.
Proof.
  intros Hzip.
  destruct (subsample_unfold graphs targets subsample_size s)
    as (gs & ts & -> & _ & Hgs).
  apply paired_shuffle_raises. rewrite Hgs, Hzip. simpl.
  by rewrite dict_keys_nil.
Qed.

Lemma balance_no_pairs graphs targets
    (estimator : option (EdenEstimator F M)) ratio s :
  zip targets graphs = [] →
  balance graphs targets estimator ratio s = Raise KeyError.
Proof.
  intros Hzip. unfold balance. rewrite Hzip.
  by destruct (majority_class (class_scan targets)).
Qed.

Lemma train_raise_inv self model graphs targets e :
  train self model graphs targets = Raise e →
  backend_raises (G:=G) (T:=T) (X:=X) (M:=M) e.
Proof.
  unfold train.
  destruct (vectorize graphs (self_r self) (self_d self) (self_discrete self)
              (self_n_jobs self)) as [x|e'] eqn:Hv; simpl.
  - intros Hfit. right. left. by exists model, x, targets.
  - intros [= ->]. left. by eexists _, _, _, _, _.
Qed.

Lemma decision_function_raise_inv self graphs e :
  decision_function self graphs = Raise e →
  backend_raises (G:=G) (T:=T) (X:=X) (M:=M) e.
Proof.
  unfold decision_function, transform.
  destruct (vectorize graphs (self_r self) (self_d self) (self_discrete self)
              (self_n_jobs self)) as [x|e'] eqn:Hv; simpl.
  - intros Hdf. right. right. by exists (self_model self), x.
  - intros [= ->]. left. by eexists _, _, _, _, _.
Qed.

Lemma balance_raise_backend graphs targets
    (estimator : option (EdenEstimator F M)) ratio s e :
  balance graphs targets estimator ratio s = Raise e →
  e = KeyError ∨ backend_raises (G:=G) (T:=T) (X:=X) (M:=M) e.
Proof.
  intros [->|(est & mj & _ & _ & Hdf)]%balance_raise_inv; [by left|].
  right. by eapply decision_function_raise_inv.
Qed.

(** X11.  With balancing on, [fit] raises nothing but the [KeyError] of
    [balance], the [ValueError] of [subsample] and the exceptions of the
    vectorizer and of the classifier; when it returns, the estimator
    differs from the one before by its classifier alone, and this
    classifier is the result of training a classifier on the vectors of
    graphs and labels of the same length whose pairs are pairs of the
    input. *)
Theorem fit_balanced_training_set self graphs targets randomize s :
  self_balance self = true →
  match fit self graphs targets randomize s with
  | Raise e =>
      e = KeyError ∨ e = ValueError ∨
      backend_raises (G:=G) (T:=T) (X:=X) (M:=M) e
  | Ok (self', _) =>
      ∃ model bal_graphs bal_targets,
        train self model bal_graphs bal_targets = Ok (self_model self') ∧
        same_settings self self' ∧
        length bal_graphs = length bal_targets ∧
        ∀ g t, (g, t) ∈ zip bal_graphs bal_targets →
               (t, g) ∈ zip targets graphs
  end.
Proof.
  intros Hb. rewrite fit_unfold, Hb. destruct randomize.
  - destruct (balance graphs targets None (self_ratio self) s)
      as [[[bal_graphs bal_targets] s2]|e] eqn:Hbal; cbn [bind]; cycle 1.
    { apply balance_raise_backend in Hbal as [->|Hbal]; auto. }
    destruct (train self (self_model self) bal_graphs bal_targets)
      as [model|e] eqn:Htrain; cbn [bind]; cycle 1.
    { right. right. by eapply train_raise_inv. }
    apply balance_inv in Hbal as (mj & mn & preds & s1 & _ & _ & _ & Hp & Hl).
    exists (self_model self), bal_graphs, bal_targets.
    split_and!; [done|apply same_settings_set_model|done|].
    intros g t Hin. rewrite Hp in Hin. by eapply balanced_input_pairs.
  - destruct (subsample graphs targets (self_subsample_size self) s)
      as [[[samp_graphs samp_targets] s1]|e] eqn:Hsub; cbn [bind]; cycle 1.
    { right. left. by eapply subsample_raise_inv. }
    destruct (train self (self_model self) samp_graphs samp_targets)
      as [boot|e] eqn:Hboot; cbn [bind]; cycle 1.
    { right. right. by eapply train_raise_inv. }
    destruct (balance graphs targets (Some (set_model self boot))
                (self_ratio self) s1)
      as [[[bal_graphs bal_targets] s2]|e] eqn:Hbal; cbn [bind]; cycle 1.
    { apply balance_raise_backend in Hbal as [->|Hbal]; auto. }
    destruct (train self boot bal_graphs bal_targets)
      as [model|e] eqn:Htrain; cbn [bind]; cycle 1.
    { right. right. by eapply train_raise_inv. }
    apply balance_inv in Hbal as (mj & mn & preds & s3 & _ & _ & _ & Hp & Hl).
    exists boot, bal_graphs, bal_targets.
    split_and!; [done|apply same_settings_set_model|done|].
    intros g t Hin. rewrite Hp in Hin. by eapply balanced_input_pairs.
Qed.

(** X12.  With balancing on, [fit] on empty graphs or labels fails
    before any training: with [KeyError], from [balance], when
    [randomize] is on, and with [ValueError], from [subsample], when it
    is off. *)
Theorem fit_empty_dataset self graphs targets randomize s :
  self_balance self = true →
  graphs = [] ∨ targets = [] →
  fit self graphs targets randomize s
  = Raise (if randomize then KeyError else ValueError).
Proof.
  intros Hb Hcase.
  assert (zip targets graphs = []) as Hzip.
  { destruct Hcase as [-> | ->]; [by destruct targets|done]. }
  unfold fit. rewrite Hb. destruct randomize.
  - by rewrite balance_no_pairs.
  - by rewrite subsample_no_pairs.
Qed.
End fit_more.

Lemma fit_balanced_training_set_witness :
  match fit toy_balanced [10; 11; 12; 13; 14; 15] [1; 1; 1; 1; 0; 0]
          false count_up with
  | Raise e =>
      e = KeyError ∨ e = ValueError ∨
      backend_raises (G:=Z) (T:=Z) (X:=Z * list Z) (M:=Z) e
  | Ok (self', _) =>
      ∃ model bal_graphs bal_targets,
        train toy_balanced model bal_graphs bal_targets
        = Ok (self_model self') ∧
        same_settings toy_balanced self' ∧
        length bal_graphs = length bal_targets ∧
        ∀ g t, (g, t) ∈ zip bal_graphs bal_targets →
               (t, g) ∈ zip [1; 1; 1; 1; 0; 0] [10; 11; 12; 13; 14; 15]
  end.
Proof.
  apply (fit_balanced_training_set toy_balanced
           [10; 11; 12; 13; 14; 15] [1; 1; 1; 1; 0; 0] false count_up).
  reflexivity.
Defined.

Lemma fit_empty_dataset_witness :
  fit toy_balanced [] [] false count_up = Raise ValueError.
Proof.
  apply (fit_empty_dataset toy_balanced [] [] false count_up);
    [reflexivity|by left].
Defined.

(** ** Exceptions of the backend

    With a classifier that fails as scikit-learn's does, the exceptions
    of the backend come out of the sampler, of [fit] and of the
    search. *)

(** An estimator that was never fitted has no decision values. *)
Example balance_unfitted_estimator :
  balance [10; 11; 12; 13; 14; 15] [1; 1; 1; 1; 0; 0] (Some strict_estimator)
    (Int 1) count_up
  = Raise NotFittedError.
Proof. vm_compute. reflexivity. Qed.

(** Two classes of the same size: [balance] returns one label, and the
    classifier refuses to fit a single class. *)
Example fit_tied_classes_raises :
  fit strict_estimator [10; 11; 12; 13] [1; 1; 0; 0] true count_up
  = Raise ValueError.
Proof. vm_compute. reflexivity. Qed.

(** Four majority and two minority graphs, [randomize] off: the
    classifier is fitted to the subsample, gives the decision values to
    [balance], and is fitted again to the four graphs of the balanced
    dataset. *)
Example fit_bootstrap_strict :
  ∃ self',
    outcome (fit strict_estimator [10; 11; 12; 13; 14; 15] [1; 1; 1; 1; 0; 0]
               false count_up)
    = Ok self' ∧
    self_model self' = Some 4 ∧ same_settings strict_estimator self'.
Proof. vm_compute. eexists. by repeat split. Qed.

(** Four graphs are too few for five folds: every trial raises, and so
    does the search. *)
Example model_selection_rand_raises :
  model_selection_rand strict_estimator [10; 11; 12; 13] [1; 1; 0; 0] 5 None
    (λ i, mkRandom (λ n, (7 * i + n)%nat) 0) count_up
  = Raise ValueError.
Proof. vm_compute. reflexivity. Qed.

(** ** More on the randomized search *)

Lemma random_choice_nil {A} (s : RandomState) :
  random_choice (@nil A) s = Raise IndexError.
Proof. reflexivity. Qed.

Section search_more.
Context {G T X M F : Type} `{EqDecision T} `{!PyDict T} `{!PyOrd G}
        `{!Backend G T X M} `{!PyFloat F} `{!PyDict ParamKey}.
Implicit Types (self : EdenEstimator F M) (graphs : list G) (targets : list T).

(** X13.  For any lists of candidate values, [_sample_params] draws
    twice from the generator and gives each of the two keys a value of
    its own list; it raises [IndexError] when a list is empty. *)
Theorem sample_params_outcome (distr : ParamKey → list Z) (s : RandomState) :
  (distr key_r ≠ [] → distr key_d ≠ [] →
   ∃ params r d,
     _sample_params distr s = Ok (params, advance (advance s)) ∧
     params key_r = Some r ∧ params key_d = Some d ∧
     r ∈ distr key_r ∧ d ∈ distr key_d) ∧
  (distr key_r = [] ∨ distr key_d = [] →
   _sample_params distr s = Raise IndexError).
Proof.
  unfold _sample_params. split.
  - intros Hr Hd.
    destruct (random_choice_Ok (distr key_r) s Hr) as (r1 & Hr1 & Hin_r1).
    destruct (random_choice_Ok (distr key_d) (advance s) Hd)
      as (d1 & Hd1 & Hin_d1).
    destruct (random_choice_Ok (distr key_d) s Hd) as (d2 & Hd2 & Hin_d2).
    destruct (random_choice_Ok (distr key_r) (advance s) Hr)
      as (r2 & Hr2 & Hin_r2).
    destruct literal_keys as [-> | ->]; cbn [foldl bind].
    + rewrite Hr1. cbn [bind]. rewrite Hd1. cbn [bind].
      by eexists _, r1, d1.
    + rewrite Hd2. cbn [bind]. rewrite Hr2. cbn [bind].
      by eexists _, r2, d2.
  - assert (∀ l s0 e, random_choice (A:=Z) l s0 = Raise e → e = IndexError)
      as Honly.
    { intros l s0 e. unfold random_choice.
      destruct (random_below _ s0) as [i s2].
      by destruct (l !! i); intros; simplify_eq. }
    intros Hnil.
    destruct literal_keys as [-> | ->]; cbn [foldl bind];
      destruct Hnil as [Hnil|Hnil].
    + by rewrite Hnil, random_choice_nil.
    + destruct (random_choice (distr key_r) s) as [[v s1]|e] eqn:Hc;
        cbn [bind].
      * by rewrite Hnil, random_choice_nil.
      * by rewrite (Honly _ _ _ Hc).
    + destruct (random_choice (distr key_d) s) as [[v s1]|e] eqn:Hc;
        cbn [bind].
      * by rewrite Hnil, random_choice_nil.
      * by rewrite (Honly _ _ _ Hc).
    + by rewrite Hnil, random_choice_nil.
Qed.

(** X14.  An exception of the optional subsampling is the exception of
    [model_selection_rand]; and when the subsampling has returned and
    [n_iter] is not positive, there is no trial, and [max] of the empty
    list of scores raises [ValueError]. *)
Theorem model_selection_rand_no_trials self graphs targets n_iter
    subsample_size worker_random s :
  match maybe_subsample graphs targets subsample_size s with
  | Raise e =>
      model_selection_rand self graphs targets n_iter subsample_size
        worker_random s = Raise e
  | Ok _ =>
      n_iter ≤ 0 →
      model_selection_rand self graphs targets n_iter subsample_size
        worker_random s = Raise ValueError
  end.
Proof.
  unfold model_selection_rand.
  destruct (maybe_subsample graphs targets subsample_size s)
    as [[[graphs' targets'] s1]|e]; [|done].
  intros Hn. cbn [bind].
  assert (Z.to_nat n_iter = O) as -> by lia. reflexivity.
Qed.
End search_more.

Lemma sample_params_outcome_witness :
  ∃ params r d,
    _sample_params param_distr count_up
    = Ok (params, advance (advance count_up)) ∧
    params key_r = Some r ∧ params key_d = Some d ∧
    r ∈ param_distr key_r ∧ d ∈ param_distr key_d.
Proof.
  apply (proj1 (sample_params_outcome param_distr count_up)); discriminate.
Defined.

Lemma model_selection_rand_no_trials_witness :
  model_selection_rand toy_estimator [10; 11; 12; 13] [1; 1; 0; 0] 0 None
    (λ _, count_up) count_up = Raise ValueError.
Proof.
  apply (model_selection_rand_no_trials (G:=Z) (T:=Z) toy_estimator
           [10; 11; 12; 13] [1; 1; 0; 0] 0 None (λ _, count_up) count_up).
  lia.
Defined.

(** ** Train and test sets *)

Lemma slice_from_drop {A} (k : Z) (l : list A) :
  slice_from k l = drop (slice_len k (length l)) l.
Proof.
  unfold slice_from, slice_len. destruct (k <? 0).
  - destruct (decide (Z.to_nat (Z.of_nat (length l) + k) ≤ length l)%nat).
    + by rewrite Nat.min_l by lia.
    + rewrite Nat.min_r by lia. by rewrite !drop_ge by lia.
  - destruct (decide (Z.to_nat k ≤ length l)%nat).
    + by rewrite Nat.min_l by lia.
    + rewrite Nat.min_r by lia. by rewrite !drop_ge by lia.
Qed.

Lemma slice_to_from {A} (k : Z) (l : list A) :
  slice_to k l ++ slice_from k l = l.
Proof. by rewrite slice_to_take, slice_from_drop, take_drop. Qed.

Lemma length_slice_from {A} (k : Z) (l : list A) :
  length (slice_from k l) = (length l - slice_len k (length l))%nat.
Proof. by rewrite slice_from_drop, length_drop. Qed.

Section train_test.
Context {G F : Type} `{!PyFloat F} `{!PySeed}.
Implicit Types (pos_graphs neg_graphs : list G) (test_proportion : F).

(** The labelled pairs of one of the two sets before its shuffle. *)
Lemma labelled_pairs (pos neg : list G) :
  zip (pos ++ neg) (replicate (length pos) 1 ++ replicate (length neg) 0)
  = ((λ g, (g, 1)) <$> pos) ++ ((λ g, (g, 0)) <$> neg).
Proof. apply zip_app_replicate. Qed.

(** X15.  [make_train_test_sets] raises nothing but [ValueError].  When
    it returns, the two lists of the caller have been permuted, and the
    pairs of the training set together with the pairs of the test set
    are the positive graphs with label 1 and the negative graphs with
    label 0: no graph is lost, repeated or given another label. *)
Theorem make_train_test_sets_partition pos_graphs neg_graphs test_proportion
    random_state :
  match make_train_test_sets pos_graphs neg_graphs test_proportion
          random_state with
  | Raise e => e = ValueError
  | Ok ((tr_graphs, tr_targets), (te_graphs, te_targets), (pos', neg'), _) =>
      pos' ≡ₚ pos_graphs ∧ neg' ≡ₚ neg_graphs ∧
      length tr_graphs = length tr_targets ∧
      length te_graphs = length te_targets ∧
      zip tr_graphs tr_targets ++ zip te_graphs te_targets ≡ₚ
        ((λ g, (g, 1)) <$> pos_graphs) ++ ((λ g, (g, 0)) <$> neg_graphs)
  end.
Proof.
  unfold make_train_test_sets.
  pose proof (random_shuffle_perm pos_graphs (random_seed random_state)) as Hpos.
  destruct (random_shuffle pos_graphs (random_seed random_state))
    as [pos' s1]. simpl in Hpos.
  pose proof (random_shuffle_perm neg_graphs s1) as Hneg.
  destruct (random_shuffle neg_graphs s1) as [neg' s2]. simpl in Hneg.
  set (kp := int_times (Z.of_nat (length pos')) test_proportion).
  set (kn := int_times (Z.of_nat (length neg')) test_proportion).
  destruct (paired_shuffle (slice_to (- kp) pos' ++ slice_to (- kn) neg') _ s2)
    as [[[tr_graphs tr_targets] s3]|e] eqn:Htr; cbn [bind]; cycle 1.
  { by apply paired_shuffle_raise_inv in Htr as [-> _]. }
  destruct (paired_shuffle (slice_from (- kp) pos' ++ slice_from (- kn) neg')
              _ s3)
    as [[[te_graphs te_targets] s4]|e] eqn:Hte; cbn [bind]; cycle 1.
  { by apply paired_shuffle_raise_inv in Hte as [-> _]. }
  apply paired_shuffle_inv in Htr as (_ & Hptr & Hltr).
  apply paired_shuffle_inv in Hte as (_ & Hpte & Hlte).
  rewrite labelled_pairs in Hptr, Hpte.
  split_and!; [done..|].
  rewrite Hptr, Hpte, <-Hpos, <-Hneg.
  rewrite <-(slice_to_from (- kp) pos') at 3.
  rewrite <-(slice_to_from (- kn) neg') at 3.
  rewrite !fmap_app.
  rewrite <-!app_assoc. apply Permutation_app_head.
  rewrite !app_assoc. apply Permutation_app_tail, Permutation_app_comm.
Qed.

(** X16.  With [kp = int(len(pos_graphs) * test_proportion)] strictly
    between 0 and the number of positive graphs, and [kn], for the
    negative graphs, between 0 and their number,
    [make_train_test_sets] returns; the test set has [kp] positive
    graphs and the training set the others; and the test set has [kn]
    negative graphs, unless [kn] is 0: then [neg_graphs[:-0]] is empty,
    and every negative graph is in the test set and none in the
    training set. *)
Theorem make_train_test_sets_sizes pos_graphs neg_graphs test_proportion
    random_state :
  let kp := int_times (Z.of_nat (length pos_graphs)) test_proportion in
  let kn := int_times (Z.of_nat (length neg_graphs)) test_proportion in
  0 < kp < Z.of_nat (length pos_graphs) →
  0 ≤ kn ≤ Z.of_nat (length neg_graphs) →
  ∃ tr_graphs tr_targets te_graphs te_targets lists s',
    make_train_test_sets pos_graphs neg_graphs test_proportion random_state
    = Ok ((tr_graphs, tr_targets), (te_graphs, te_targets), lists, s') ∧
    Counter te_targets 1 = kp ∧
    Counter tr_targets 1 = Z.of_nat (length pos_graphs) - kp ∧
    Counter te_targets 0
    = (if kn =? 0 then Z.of_nat (length neg_graphs) else kn) ∧
    Counter tr_targets 0
    = (if kn =? 0 then 0 else Z.of_nat (length neg_graphs) - kn).
Proof.
  intros kp kn Hkp Hkn. unfold make_train_test_sets.
  pose proof (random_shuffle_length pos_graphs (random_seed random_state))
    as Hpos.
  destruct (random_shuffle pos_graphs (random_seed random_state))
    as [pos' s1]. simpl in Hpos.
  pose proof (random_shuffle_length neg_graphs s1) as Hneg.
  destruct (random_shuffle neg_graphs s1) as [neg' s2]. simpl in Hneg.
  rewrite Hpos, Hneg. fold kp kn.
  assert (length (slice_to (- kp) pos') = Z.to_nat (Z.of_nat (length pos_graphs) - kp))
    as Hltr_pos.
  { rewrite length_slice_to, Hpos. unfold slice_len.
    destruct (Z.ltb_spec (- kp) 0); lia. }
  assert (length (slice_from (- kp) pos') = Z.to_nat kp) as Hlte_pos.
  { rewrite length_slice_from, Hpos. unfold slice_len.
    destruct (Z.ltb_spec (- kp) 0); lia. }
  assert (length (slice_to (- kn) neg')
          = Z.to_nat (if kn =? 0 then 0
                      else Z.of_nat (length neg_graphs) - kn)) as Hltr_neg.
  { rewrite length_slice_to, Hneg. unfold slice_len.
    destruct (Z.eqb_spec kn 0), (Z.ltb_spec (- kn) 0); lia. }
  assert (length (slice_from (- kn) neg')
          = Z.to_nat (if kn =? 0 then Z.of_nat (length neg_graphs)
                      else kn)) as Hlte_neg.
  { rewrite length_slice_from, Hneg. unfold slice_len.
    destruct (Z.eqb_spec kn 0), (Z.ltb_spec (- kn) 0); lia. }
  match goal with |- context [paired_shuffle ?a ?b s2] =>
    destruct (paired_shuffle_Ok a b s2)
      as (tr_graphs & tr_targets & s3 & -> & Hptr & Hltr) end.
  { rewrite labelled_pairs.
    destruct (slice_to (- kp) pos'); [simpl in Hltr_pos; lia|done]. }
  cbn [bind].
  match goal with |- context [paired_shuffle ?a ?b s3] =>
    destruct (paired_shuffle_Ok a b s3)
      as (te_graphs & te_targets & s4 & -> & Hpte & Hlte) end.
  { rewrite labelled_pairs.
    destruct (slice_from (- kp) pos'); [simpl in Hlte_pos; lia|done]. }
  cbn [bind].
  rewrite labelled_pairs in Hptr, Hpte.
  destruct (zip_Permutation_snd _ _ _ Hltr Hptr) as [Htr _].
  destruct (zip_Permutation_snd _ _ _ Hlte Hpte) as [Hte _].
  rewrite fmap_app, !snd_fmap_pair_const in Htr, Hte.
  eexists tr_graphs, tr_targets, te_graphs, te_targets, _, _.
  split; [done|].
  rewrite !(Counter_perm _ _ _ Htr), !(Counter_perm _ _ _ Hte), !Counter_app.
  rewrite !Counter_replicate_eq.
  rewrite !(Counter_replicate_ne _ 1 0), !(Counter_replicate_ne _ 0 1) by done.
  rewrite Hltr_pos, Hlte_pos, Hltr_neg, Hlte_neg.
  destruct (Z.eqb_spec kn 0); lia.
Qed.

(** X17.  When [int(n * test_proportion)] is 0 for the number of
    positive graphs and for the number of negative graphs, as it is for
    few graphs, both [graphs[:-0]] are empty, so is the training set,
    and [make_train_test_sets] raises [ValueError]. *)
Theorem make_train_test_sets_small pos_graphs neg_graphs test_proportion
    random_state :
  int_times (Z.of_nat (length pos_graphs)) test_proportion = 0 →
  int_times (Z.of_nat (length neg_graphs)) test_proportion = 0 →
  make_train_test_sets pos_graphs neg_graphs test_proportion random_state
  = Raise ValueError.
Proof.
  intros Hkp Hkn. unfold make_train_test_sets.
  pose proof (random_shuffle_length pos_graphs (random_seed random_state))
    as Hpos.
  destruct (random_shuffle pos_graphs (random_seed random_state))
    as [pos' s1]. simpl in Hpos.
  pose proof (random_shuffle_length neg_graphs s1) as Hneg.
  destruct (random_shuffle neg_graphs s1) as [neg' s2]. simpl in Hneg.
  rewrite Hpos, Hneg, Hkp, Hkn.
  change (slice_to (- 0) pos') with (take 0 pos').
  change (slice_to (- 0) neg') with (take 0 neg').
  rewrite !take_0. reflexivity.
Qed.
End train_test.

Lemma make_train_test_sets_sizes_witness :
  ∃ tr_graphs tr_targets te_graphs te_targets lists s',
    make_train_test_sets [1; 2; 3; 4] [11; 12; 13] (3, 10) 2
    = Ok ((tr_graphs, tr_targets), (te_graphs, te_targets), lists, s') ∧
    Counter te_targets 1 = 1 ∧
    Counter tr_targets 1 = 4 - 1 ∧
    Counter te_targets 0 = 3 ∧
    Counter tr_targets 0 = 0.
Proof.
  refine (make_train_test_sets_sizes (G:=Z)
            [1; 2; 3; 4] [11; 12; 13] (3, 10) 2 _ _).
  - vm_compute. split; reflexivity.
  - vm_compute. split; discriminate.
Defined.

Lemma make_train_test_sets_small_witness :
  make_train_test_sets [1; 2; 3] [11; 12; 13] (3, 10) 2 = Raise ValueError.
Proof.
  apply (make_train_test_sets_small (G:=Z) [1; 2; 3] [11; 12; 13] (3, 10) 2);
    reflexivity.
Defined.

(** ** Ties between classes *)

Section class_ties.
Context {G T X M F : Type} `{EqDecision T} `{!PyDict T} `{!PyOrd G}
        `{!Backend G T X M} `{!PyFloat F}.
Implicit Types (targets : list T).

Lemma scan_first_foldl (cc : T → Z) (ks : list T) :
  (∀ k, k ∈ ks → 0 < cc k) →
  let v := foldl (scan_class cc) scan_init ks in
  match majority_class v with
  | None => ks = [] ∧ max_count v = 0
  | Some mj =>
      max_count v = cc mj ∧
      ∃ l1 l2, ks = l1 ++ mj :: l2 ∧
               (∀ k, k ∈ l1 → cc k < cc mj) ∧ (∀ k, k ∈ l2 → cc k ≤ cc mj)
  end ∧
  match minority_class v with
  | None => min_count v = 1000000 ∧ ∀ k, k ∈ ks → 1000000 ≤ cc k
  | Some mn =>
      min_count v = cc mn ∧ cc mn < 1000000 ∧
      ∃ l1 l2, ks = l1 ++ mn :: l2 ∧
               (∀ k, k ∈ l1 → cc mn < cc k) ∧ (∀ k, k ∈ l2 → cc mn ≤ cc k)
  end.
Proof.
  induction ks as [|k ks IH] using rev_ind; intros Hpos; simpl.
  { repeat split; try done. intros k []%not_elem_of_nil. }
  rewrite foldl_app. simpl.
  destruct IH as [Hmaj Hmin].
  { intros k' Hk'. apply Hpos. rewrite elem_of_app. by left. }
  assert (0 < cc k) as Hk.
  { apply Hpos. rewrite elem_of_app, list_elem_of_singleton. by right. }
  destruct (foldl (scan_class cc) scan_init ks) as [maj mx mn mi].
  unfold scan_class. simpl in *.
  assert (∀ (c : Z) (mid : T) (l1 l2 : list T) (R1 R2 : Z → Z → Prop),
            (∀ k', k' ∈ l1 → R1 (cc k') (cc mid)) →
            R1 (cc mid) c →
            (∀ k', k' ∈ l2 → R2 (cc k') (cc mid)) →
            (∀ a b, R1 a b → R1 b c → R1 a c) →
            (∀ a b, R2 a b → R1 b c → R1 a c) →
            ∀ k', k' ∈ l1 ++ mid :: l2 → R1 (cc k') c) as Hbefore.
  { intros c mid l1 l2 R1 R2 H1 Hmid H2 Ht1 Ht2 k'.
    rewrite elem_of_app, elem_of_cons. intros [?|[->|?]]; eauto. }
  split.
  - destruct (Z.ltb_spec mx (cc k)) as [Hlt|Hge]; simpl;
      rewrite Z.gtb_ltb; destruct (Z.ltb_spec (cc k) mi); simpl.
    1,2: split; [done|]; exists ks, []; split_and!; [done| |by intros ? ?%not_elem_of_nil];
      destruct maj as [mj|];
      [destruct Hmaj as (-> & l1 & l2 & -> & H1 & H2);
       apply (Hbefore (cc k) mj l1 l2 Z.lt Z.le); (done || lia)
      |destruct Hmaj as [-> _]; by intros ? ?%not_elem_of_nil].
    1,2: destruct maj as [mj|]; [|destruct Hmaj as [_ ->]; lia];
      destruct Hmaj as (-> & l1 & l2 & -> & H1 & H2);
      split; [done|]; exists l1, (l2 ++ [k]);
      split_and!; [by rewrite <-app_assoc|done|];
      intros k'; rewrite elem_of_app, list_elem_of_singleton;
      intros [?| ->]; [by apply H2|lia].
  - destruct (Z.ltb_spec mx (cc k)) as [Hlt|Hge]; simpl;
      rewrite Z.gtb_ltb; destruct (Z.ltb_spec (cc k) mi) as [Hlt'|Hge']; simpl.
    1,3: destruct mn as [mn'|];
      [destruct Hmin as (-> & Hsmall & l1 & l2 & -> & H1 & H2);
       split_and!; [done|lia|]; exists (l1 ++ mn' :: l2), [];
       split_and!; [done| |by intros ? ?%not_elem_of_nil];
       intros k' Hk';
       pose proof (Hbefore (cc k) mn' l1 l2 Z.gt Z.ge) as Hb;
       apply Z.gt_lt, Hb; (done || lia || (intros; by apply Z.lt_gt, H1)
                            || (intros; by apply Z.le_ge, H2))
      |destruct Hmin as [-> Hbig];
       split_and!; [done|lia|]; exists ks, [];
       split_and!; [done| |by intros ? ?%not_elem_of_nil];
       intros k' Hk'; specialize (Hbig k' Hk'); lia].
    1,2: destruct mn as [mn'|];
      [destruct Hmin as (-> & Hsmall & l1 & l2 & -> & H1 & H2);
       split_and!; [done..|]; exists l1, (l2 ++ [k]);
       split_and!; [by rewrite <-app_assoc|done|];
       intros k'; rewrite elem_of_app, list_elem_of_singleton;
       intros [?| ->]; [by apply H2|lia]
      |destruct Hmin as [-> Hbig]; split; [done|];
       intros k'; rewrite elem_of_app, list_elem_of_singleton;
       intros [?| ->]; [by apply Hbig|lia]].
Qed.

(** X18.  Ties are broken by the iteration order of the counter: when
    some class has fewer than 10^6 members, the majority class of
    [balance] is the first class, in that order, of largest count, and
    the minority class the first of smallest count. *)
Theorem class_scan_first targets :
  (∃ k, k ∈ targets ∧ Counter targets k < 1000000) →
  ∃ mj mn l1 l2 m1 m2,
    majority_class (class_scan targets) = Some mj ∧
    minority_class (class_scan targets) = Some mn ∧
    dict_keys targets = l1 ++ mj :: l2 ∧
    (∀ k, k ∈ l1 → Counter targets k < Counter targets mj) ∧
    (∀ k, k ∈ l2 → Counter targets k ≤ Counter targets mj) ∧
    dict_keys targets = m1 ++ mn :: m2 ∧
    (∀ k, k ∈ m1 → Counter targets mn < Counter targets k) ∧
    (∀ k, k ∈ m2 → Counter targets mn ≤ Counter targets k).
Proof.
  intros (k0 & Hk0 & Hsmall).
  destruct (scan_first_foldl (Counter targets) (dict_keys targets))
    as [Hmaj Hmin].
  { intros k Hk%elem_of_dict_keys_1. by apply Counter_pos. }
  fold (class_scan targets) in Hmaj, Hmin.
  destruct (majority_class (class_scan targets)) as [mj|]; cycle 1.
  { destruct Hmaj as [Hnil _]. apply elem_of_dict_keys_2 in Hk0.
    rewrite Hnil in Hk0. by apply not_elem_of_nil in Hk0. }
  destruct (minority_class (class_scan targets)) as [mn|]; cycle 1.
  { destruct Hmin as [_ Hbig].
    specialize (Hbig k0 (elem_of_dict_keys_2 _ _ Hk0)). lia. }
  destruct Hmaj as (_ & l1 & l2 & Hl & H1 & H2).
  destruct Hmin as (_ & _ & m1 & m2 & Hm & H3 & H4).
  by exists mj, mn, l1, l2, m1, m2.
Qed.
End class_ties.

Lemma class_scan_first_witness :
  ∃ mj mn l1 l2 m1 m2,
    majority_class (class_scan [2; 1; 1; 0; 0]) = Some mj ∧
    minority_class (class_scan [2; 1; 1; 0; 0]) = Some mn ∧
    dict_keys [2; 1; 1; 0; 0] = l1 ++ mj :: l2 ∧
    (∀ k, k ∈ l1 → Counter [2; 1; 1; 0; 0] k < Counter [2; 1; 1; 0; 0] mj) ∧
    (∀ k, k ∈ l2 → Counter [2; 1; 1; 0; 0] k ≤ Counter [2; 1; 1; 0; 0] mj) ∧
    dict_keys [2; 1; 1; 0; 0] = m1 ++ mn :: m2 ∧
    (∀ k, k ∈ m1 → Counter [2; 1; 1; 0; 0] mn < Counter [2; 1; 1; 0; 0] k) ∧
    (∀ k, k ∈ m2 → Counter [2; 1; 1; 0; 0] mn ≤ Counter [2; 1; 1; 0; 0] k).
Proof.
  apply (class_scan_first (T:=Z)).
  exists 2. split; [in_list|vm_compute; reflexivity].
Defined.
